(** * Shallow embedding of the MySQL server-side packet layer of sql-protocol

    Sources: src/src/constants.rs, src/src/proto/packets.rs,
    src/src/proto/auth.rs, src/src/sql_type/mod.rs.

    Bytes are integers in [0, 255] ([Z]); a byte vector is a [list Z].
    The bidirectional stream owned by [Packets] is modelled by two queues:
    [input], the bytes the peer sent that have not been read yet, and
    [output], every byte written so far.  Writes to the stream never fail
    in this model.  The stream is always present (the source panics on
    [None]; every caller sets it first). *)

From Stdlib Require Import String Ascii.
From Stdlib Require Import ZArith List Bool Lia Btauto.
Import ListNotations.
Open Scope Z_scope.

(** ** constants.rs *)

Definition MAX_PACKET_SIZE : Z := Z.shiftl 1 24 - 1.
Definition OK_PACKET : Z := 0.
Definition ERR_PACKET : Z := 255.
Definition EOF_PACKET : Z := 255.
Definition SERVER_MORE_RESULTS_EXISTS : Z := 8.

Definition CapabilityClientFoundRows : Z := Z.shiftl 1 1.
Definition CapabilityClientProtocol41 : Z := Z.shiftl 1 9.
Definition CapabilityClientMultiStatements : Z := Z.shiftl 1 16.
Definition CapabilityClientDeprecateEOF : Z := Z.shiftl 1 24.

Definition ERUnknownComError : Z := 1047.

(** [StateError::SSUnknownSQLState] is "HY000", [SSUnknownComError] is
    "08S01", as ASCII codes. *)
Definition SSUnknownSQLState : list Z := [72; 89; 48; 48; 48].
Definition SSUnknownComError : list Z := [48; 56; 83; 48; 49].

(** [PacketType], restricted to the variants that [handle_next_command]
    distinguishes; [ComOther] stands for the remaining command codes. *)
Inductive PacketType :=
| ComQuit | ComInitDB | ComQuery | ComPing | ComSetOption
| ComStmtPrepare | ComStmtExecute | ComStmtReset | ComStmtClose
| ComOther (code : Z).

(** ** errors.rs *)

(** The [io::Error]s the packet layer raises. *)
Inductive io_error :=
| InvalidSequence      (* InvalidData, "Invalid sequence" *)
| HeaderReadFailed     (* InvalidData, "Read packet header failed" *)
| UnexpectedEof        (* read_exact / read_u16 on a short stream *)
| SendFinished.        (* UnexpectedEof, "": the failsafe of exec_query *)

Inductive ProtoError :=
| Io (e : io_error)
| ReadClientFlagError
| ProtocolNotSupport
| ReadMaxPacketSizeError
| ReadCharsetError
| ReadZeroError
| ReadAuthResponseError
| ReadAuthResponseLengthError
| ReadProtocolVersionError
| ReadServerVersionError
| ReadConnectionIdError
| ReadSaltError
| ReadCapabilityFlagError
| ReadStatusFlagError
| ReadAuthPluginLenError
| MultiPacketNotSupport
| EmptyPacketError
| ComQuitSignal.

Inductive res (A : Type) :=
| Ok (a : A)
| Err (e : ProtoError).
Arguments Ok {A} a.
Arguments Err {A} e.

(** ** The framer state ([struct Packets]) *)

Record Packets := mkPackets {
  sequence_id : Z;
  capability : Z;
  status_flags : Z;
  input : list Z;
  output : list Z
}.

(** [Packets::new] followed by [set_stream] on a stream whose peer sends
    [inp]. *)
Definition Packets_new (inp : list Z) : Packets := mkPackets 0 0 0 inp [].

Definition set_sequence_id (s : Z) (p : Packets) : Packets :=
  mkPackets s (capability p) (status_flags p) (input p) (output p).
Definition set_capability (c : Z) (p : Packets) : Packets :=
  mkPackets (sequence_id p) c (status_flags p) (input p) (output p).
Definition set_status_flags (f : Z) (p : Packets) : Packets :=
  mkPackets (sequence_id p) (capability p) f (input p) (output p).
Definition set_input (i : list Z) (p : Packets) : Packets :=
  mkPackets (sequence_id p) (capability p) (status_flags p) i (output p).
Definition set_output (o : list Z) (p : Packets) : Packets :=
  mkPackets (sequence_id p) (capability p) (status_flags p) (input p) o.

(** A computation on the framer: it returns a result and the new state,
    or panics (an [unwrap] on [Err], an out-of-bounds index). *)
Inductive outcome (A : Type) :=
| Ret (r : res A) (p : Packets)
| Panic.
Arguments Ret {A} r p.
Arguments Panic {A}.

Definition M (A : Type) := Packets -> outcome A.

Definition ret {A} (a : A) : M A := fun p => Ret (Ok a) p.
Definition throw {A} (e : ProtoError) : M A := fun p => Ret (Err e) p.
Definition panic {A} : M A := fun _ => Panic.
Definition bind {A B} (m : M A) (f : A -> M B) : M B :=
  fun p => match m p with
           | Ret (Ok a) p' => f a p'
           | Ret (Err e) p' => Ret (Err e) p'
           | Panic => Panic
           end.

Notation "x <- m ;; k" := (bind m (fun x => k))
  (at level 61, m at next level, right associativity).
Notation "m ;;; k" := (bind m (fun _ => k))
  (at level 61, right associativity).

Definition get : M Packets := fun p => Ret (Ok p) p.
Definition modify (f : Packets -> Packets) : M unit :=
  fun p => Ret (Ok tt) (f p).

(** [inner.write_all(bytes)]. *)
Definition write_all (bytes : list Z) : M unit :=
  modify (fun p => set_output (output p ++ bytes) p).

(** [self.sequence_id += 1] on a [u8], wrapping at 256. *)
Definition incr_seq : M unit :=
  modify (fun p => set_sequence_id ((sequence_id p + 1) mod 256) p).

(** ** Byte-list helpers *)

Definition zlen {A} (l : list A) : Z := Z.of_nat (length l).

(** The UTF-8 bytes of an ASCII string literal. *)
Definition bytes_of_string (s : string) : list Z :=
  map (fun c => Z.of_nat (nat_of_ascii c)) (list_ascii_of_string s).

Fixpoint takeZ {A} (n : Z) (l : list A) : list A :=
  match l with
  | [] => []
  | x :: t => if n <=? 0 then [] else x :: takeZ (n - 1) t
  end.

Fixpoint dropZ {A} (n : Z) (l : list A) : list A :=
  match l with
  | [] => []
  | x :: t => if n <=? 0 then l else dropZ (n - 1) t
  end.

(** [write_u16::<LittleEndian>] and the like. *)
Definition u8 (x : Z) : Z := Z.land x 255.
Definition le16 (x : Z) : list Z := [u8 x; u8 (Z.shiftr x 8)].
Definition le24 (x : Z) : list Z := [u8 x; u8 (Z.shiftr x 8); u8 (Z.shiftr x 16)].
Definition le32 (x : Z) : list Z :=
  [u8 x; u8 (Z.shiftr x 8); u8 (Z.shiftr x 16); u8 (Z.shiftr x 24)].
Definition le64 (x : Z) : list Z :=
  map (fun i => u8 (Z.shiftr x (8 * i))) [0; 1; 2; 3; 4; 5; 6; 7].

(** ** Writing: [write_packet] *)

(** One iteration of the [loop] of [write_packet] per fuel unit; [data] is
    [&data[index..]] and its length is [len].  [write_packet] gives fuel
    [S (length data)]: every iteration that does not return consumes
    [MAX_PACKET_SIZE] bytes. *)
Fixpoint write_packet_loop (fuel : nat) (data : list Z) : M unit :=
  match fuel with
  | O => ret tt
  | S fuel' =>
      p <- get ;;
      let len := zlen data in
      let pkg_len := if len >? MAX_PACKET_SIZE then MAX_PACKET_SIZE else len in
      let header := [u8 pkg_len; u8 (Z.shiftr pkg_len 8);
                     u8 (Z.shiftr pkg_len 16); sequence_id p] in
      write_all header ;;;
      write_all (takeZ pkg_len data) ;;;
      incr_seq ;;;
      if len - pkg_len =? 0 then
        if pkg_len =? MAX_PACKET_SIZE then
          p' <- get ;;
          write_all [0; 0; 0; sequence_id p'] ;;;
          incr_seq
        else ret tt
      else write_packet_loop fuel' (dropZ pkg_len data)
  end.

Definition write_packet (data : list Z) : M unit :=
  write_packet_loop (S (length data)) data.

(** ** Reading *)

(** [inner.read_exact(&mut buf)] for [n] bytes. *)
Definition read_exact (n : Z) : M (list Z) :=
  fun p =>
    if n <=? zlen (input p)
    then Ret (Ok (takeZ n (input p))) (set_input (dropZ n (input p)) p)
    else Ret (Err (Io UnexpectedEof)) (set_input [] p).

Definition read_header : M Z :=
  fun p =>
    match input p with
    | h0 :: h1 :: h2 :: h3 :: rest =>
        let p1 := set_input rest p in
        if negb (h3 =? sequence_id p1)
        then Ret (Err (Io InvalidSequence)) p1
        else Ret (Ok (Z.lor h0 (Z.lor (Z.shiftl h1 8) (Z.shiftl h2 16))))
                 (set_sequence_id ((sequence_id p1 + 1) mod 256) p1)
    | _ => Ret (Err (Io HeaderReadFailed)) (set_input [] p)
    end.

Definition read_content (len : Z) : M (list Z) := read_exact len.

Definition read_one_packet : M (list Z) :=
  length <- read_header ;;
  if length =? 0 then ret [] else read_content length.

(** The [loop] of [read_batch_packets]; one iteration per fuel unit. *)
Fixpoint read_batch_loop (fuel : nat) (data : list Z) : M (list Z) :=
  match fuel with
  | O => ret data
  | S fuel' =>
      next <- read_one_packet ;;
      match next with
      | [] => ret data
      | _ =>
          let data' := data ++ next in
          if zlen next <? MAX_PACKET_SIZE then ret data'
          else read_batch_loop fuel' data'
      end
  end.

(** Every iteration consumes a 4-byte header or fails, so the fuel
    [S (length input)] is never exhausted. *)
Definition read_batch_packets (data : list Z) : M (list Z) :=
  p <- get ;;
  read_batch_loop (S (length (input p))) data.

Definition read_packets : M (list Z) :=
  data <- read_one_packet ;;
  if zlen data <? MAX_PACKET_SIZE then ret data
  else read_batch_packets data.

Definition read_ephemeral_packet_direct : M (list Z) :=
  length <- read_header ;;
  if length =? 0 then ret []
  else if length >? MAX_PACKET_SIZE then throw MultiPacketNotSupport
  else read_content length.

Definition read_ephemeral_packet : M (list Z) :=
  length <- read_header ;;
  if length =? 0 then ret []
  else if length >? MAX_PACKET_SIZE then
    c <- read_content length ;;
    read_batch_packets c
  else read_content length.

(** ** Length-encoded integers and strings *)

Definition write_len_int (value : Z) : list Z :=
  if value <? 251 then [u8 value]
  else if value <? Z.shiftl 1 16 then 252 :: le16 value
  else if value <? Z.shiftl 1 24 then 253 :: le24 value
  else 254 :: le64 value.

Definition write_len_str (s : list Z) : list Z := write_len_int (zlen s) ++ s.

Definition len_enc_int_size (n : Z) : Z :=
  if n <? 251 then 1
  else if n <? Z.shiftl 1 16 then 3
  else if n <? Z.shiftl 1 24 then 4
  else 9.

(** [len_enc_str_size]. *)
Definition len_enc_str_size (v : list Z) : Z := len_enc_int_size (zlen v) + zlen v.

(** ** sql_type/mod.rs *)

Record Field := mkField {
  name : list Z; typ : Z; table : list Z; org_table : list Z;
  database : list Z; org_name : list Z;
  column_len : Z; charset : Z; decimals : Z; flags : Z
}.

Record Value := mkValue { vtyp : Z; val : list Z }.

Record SqlResult := mkSqlResult {
  fields : list Field;
  affected_rows : Z;
  insert_id : Z;
  rows : list (list Value)
}.

Definition is_null (v : Value) : bool := vtyp v =? 0.

Definition MysqlUnsigned : Z := 32.
Definition MysqlBinary : Z := 128.
Definition MysqlEnum : Z := 256.
Definition MysqlSet : Z := 2048.

(** The [TYPE_TO_MYSQL] table. *)
Definition TYPE_TO_MYSQL : list (Z * (Z * Z)) :=
  [(257, (1, 0)); (770, (1, MysqlUnsigned)); (259, (2, 0));
   (772, (2, MysqlUnsigned)); (263, (3, 0)); (776, (3, MysqlUnsigned));
   (1035, (4, 0)); (1036, (5, 0)); (0, (6, MysqlBinary)); (2061, (7, 0));
   (265, (8, 0)); (778, (8, MysqlUnsigned)); (261, (9, 0));
   (774, (9, MysqlUnsigned)); (2062, (10, MysqlBinary));
   (2063, (11, MysqlBinary)); (2064, (12, MysqlBinary));
   (785, (13, MysqlUnsigned)); (2073, (16, MysqlUnsigned)); (2078, (245, 0));
   (18, (246, 0)); (6163, (252, 0)); (10260, (252, MysqlBinary));
   (6165, (253, 0)); (10262, (253, MysqlBinary)); (6167, (254, 0));
   (10264, (254, MysqlBinary)); (2074, (254, MysqlEnum));
   (2075, (254, MysqlSet)); (2077, (255, 0))].

Fixpoint assoc_lookup (k : Z) (m : list (Z * (Z * Z))) : option (Z * Z) :=
  match m with
  | [] => None
  | (k', v) :: t => if k =? k' then Some v else assoc_lookup k t
  end.

(** [type_to_mysql]: [None] where the source panics ("Unexpected"). *)
Definition type_to_mysql (t : Z) : option (Z * Z) := assoc_lookup t TYPE_TO_MYSQL.

(** ** Response packets *)

(** [write_eof_packet]: written straight to the stream, without a frame
    header and without advancing the sequence id. *)
Definition write_eof_packet (flags warnings : Z) : M unit :=
  write_all [EOF_PACKET] ;;;
  write_all (le16 warnings) ;;;
  write_all (le16 flags).

Definition ok_body (header affected_rows last_insert_id flags warnings : Z) : list Z :=
  [header] ++ write_len_int affected_rows ++ write_len_int last_insert_id
  ++ le16 flags ++ le16 warnings.

Definition write_ok_packet (affected_rows last_insert_id flags warnings : Z) : M unit :=
  write_packet (ok_body OK_PACKET affected_rows last_insert_id flags warnings).

Definition write_ok_packet_with_eof_header
  (affected_rows last_insert_id flags warnings : Z) : M unit :=
  write_packet (ok_body EOF_PACKET affected_rows last_insert_id flags warnings).

Definition deprecate_eof_unset (p : Packets) : bool :=
  Z.land (capability p) CapabilityClientDeprecateEOF =? 0.

Definition write_end_result (more : bool) (affected_rows last_insert_id warnings : Z)
  : M unit :=
  p <- get ;;
  let flags := if more then Z.lor (status_flags p) SERVER_MORE_RESULTS_EXISTS
               else status_flags p in
  if deprecate_eof_unset p then write_eof_packet flags warnings
  else write_ok_packet_with_eof_header affected_rows last_insert_id flags warnings.

(** [write_err_packet]: the [assert_eq!] on the SQL state length panics
    when it fails. *)
Definition write_err_packet (err_code : Z) (sql_state err_msg : list Z) : M unit :=
  let sql_state := match sql_state with [] => SSUnknownSQLState | _ => sql_state end in
  if negb (zlen sql_state =? 5) then panic
  else write_packet ([ERR_PACKET] ++ le16 err_code ++ [35] ++ sql_state ++ err_msg).

(** ** Result sets *)

(** [write_column_definition]; [None] where [type_to_mysql] panics. *)
Definition write_column_definition (field : Field) : option (list Z) :=
  match type_to_mysql (typ field) with
  | None => None
  | Some (t, fl) =>
      let fl := if negb (flags field =? 0) then flags field else fl in
      Some (write_len_str [100; 101; 102]  (* "def" *)
            ++ write_len_str (database field) ++ write_len_str (table field)
            ++ write_len_str (org_table field) ++ write_len_str (name field)
            ++ write_len_str (org_name field)
            ++ [12] ++ le16 (charset field) ++ le32 (column_len field)
            ++ [u8 t] ++ le16 fl ++ [u8 (decimals field)] ++ le16 0)
  end.

Fixpoint write_columns (fs : list Field) : M unit :=
  match fs with
  | [] => ret tt
  | f :: t =>
      match write_column_definition f with
      | None => panic
      | Some column => write_all column ;;; write_columns t
      end
  end.

(** [write_fields].  The length-encoded size of the field count is built
    in the local buffer [data], which is not written anywhere. *)
Definition write_fields (result : SqlResult) : M unit :=
  let count := zlen (fields result) in
  let len := len_enc_int_size count in
  let data := write_len_int len in
  write_columns (fields result) ;;;
  p <- get ;;
  if deprecate_eof_unset p then write_eof_packet (status_flags p) 0 else ret tt.

Definition encode_value (v : Value) : list Z :=
  if is_null v then [251] else write_len_int (zlen (val v)) ++ val v.

Definition write_row (row : list Value) : M unit :=
  write_all (concat (map encode_value row)).

Fixpoint write_rows_list (rs : list (list Value)) : M unit :=
  match rs with
  | [] => ret tt
  | r :: t => write_row r ;;; write_rows_list t
  end.

Definition write_rows (qr : SqlResult) : M unit := write_rows_list (rows qr).

(** ** exec_query *)

(** The state captured by the callback closure of [exec_query]. *)
Record cb_state := mk_cb { send_finished : bool; field_sent : bool }.

(** [attempt m] runs [m] and hands its [io::Result] back as a value, the
    way the callback returns it to the handler instead of propagating it. *)
Definition attempt {A} (m : M A) : M (res A) :=
  fun p => match m p with
           | Ret r p' => Ret (Ok r) p'
           | Panic => Panic
           end.

(** The callback closure passed to [handler.com_query]. *)
Definition callback (more : bool) (cs : cb_state) (qr : SqlResult)
  : M (res unit * cb_state) :=
  p <- get ;;
  let flags := if more then Z.lor (status_flags p) SERVER_MORE_RESULTS_EXISTS
               else status_flags p in
  if send_finished cs then ret (Err (Io SendFinished), cs)
  else if negb (field_sent cs) then
    match fields qr with
    | [] =>
        r <- attempt (write_ok_packet (affected_rows qr) (insert_id qr) flags 0) ;;
        ret (r, mk_cb true true)
    | _ =>
        r <- attempt (write_fields qr) ;;
        ret (r, mk_cb (send_finished cs) true)
    end
  else
    r <- attempt (write_rows qr) ;;
    ret (r, cs).

(** A query handler's [com_query] for one SQL string: it calls the
    callback with a segment and continues with what the callback
    returned, or returns its own [io::Result]. *)
Inductive hprog :=
| HRet (r : res unit)
| HCall (qr : SqlResult) (k : res unit -> hprog).

Definition Handler := list Z -> hprog.

Fixpoint run_handler (more : bool) (h : hprog) (cs : cb_state)
  : M (res unit * cb_state) :=
  match h with
  | HRet r => ret (r, cs)
  | HCall qr k =>
      rc <- callback more cs qr ;;
      run_handler more (k (fst rc)) (snd rc)
  end.

Definition exec_query (handler : Handler) (sql : list Z) (more : bool) : M unit :=
  rc <- run_handler more (handler sql) (mk_cb false false) ;;
  let (r, cs) := rc in
  match r with
  | Err e => throw e
  | Ok _ =>
      if field_sent cs then
        if negb (send_finished cs) then write_end_result more 0 0 0 else ret tt
      else ret tt
  end.

(** ** handle_next_command *)

(** [String::from_utf8] of the Rust standard library accepts exactly the
    well-formed UTF-8 sequences (Unicode, Table 3-7). *)
Definition utf8_cont (b : Z) : bool := (128 <=? b) && (b <=? 191).

Fixpoint utf8_valid (l : list Z) : bool :=
  match l with
  | [] => true
  | b0 :: t =>
      if b0 <=? 127 then utf8_valid t
      else if (194 <=? b0) && (b0 <=? 223) then
        match t with
        | b1 :: t1 => utf8_cont b1 && utf8_valid t1
        | _ => false
        end
      else if (224 <=? b0) && (b0 <=? 239) then
        match t with
        | b1 :: b2 :: t2 =>
            let lo := if b0 =? 224 then 160 else 128 in
            let hi := if b0 =? 237 then 159 else 191 in
            (lo <=? b1) && (b1 <=? hi) && utf8_cont b2 && utf8_valid t2
        | _ => false
        end
      else if (240 <=? b0) && (b0 <=? 244) then
        match t with
        | b1 :: b2 :: b3 :: t3 =>
            let lo := if b0 =? 240 then 144 else 128 in
            let hi := if b0 =? 244 then 143 else 191 in
            (lo <=? b1) && (b1 <=? hi) && utf8_cont b2 && utf8_cont b3
            && utf8_valid t3
        | _ => false
        end
      else false
  end.

(** [trim_packet_type]: [data[1..]] then [String::from_utf8(..).unwrap()]. *)
Definition trim_packet_type (data : list Z) : M (list Z) :=
  match data with
  | [] => panic
  | _ :: tmp => if utf8_valid tmp then ret tmp else panic
  end.

Definition parse_com_init_db (data : list Z) : M (list Z) := trim_packet_type data.
Definition parse_com_query (data : list Z) : M (list Z) := trim_packet_type data.

(** [parse_set_option]: [data[1..]] then [read_u16::<LittleEndian>]. *)
Definition parse_set_option (data : list Z) : M (res Z) :=
  match data with
  | [] => panic
  | _ :: b0 :: b1 :: _ => ret (Ok (Z.lor b0 (Z.shiftl b1 8)))
  | _ :: _ => ret (Err (Io UnexpectedEof))
  end.

(** [PacketType::from] on a command byte; it panics ("Unknown packet
    type") above 0x1f. *)
Definition packet_type_of (pt : Z) : option PacketType :=
  if pt =? 1 then Some ComQuit
  else if pt =? 2 then Some ComInitDB
  else if pt =? 3 then Some ComQuery
  else if pt =? 14 then Some ComPing
  else if pt =? 27 then Some ComSetOption
  else if pt =? 22 then Some ComStmtPrepare
  else if pt =? 23 then Some ComStmtExecute
  else if pt =? 26 then Some ComStmtReset
  else if pt =? 25 then Some ComStmtClose
  else if (0 <=? pt) && (pt <=? 31) then Some (ComOther pt)
  else None.

Definition set_multi_statements (on : bool) : M unit :=
  modify (fun p =>
    set_capability
      (if on then Z.lor (capability p) CapabilityClientMultiStatements
       else Z.land (capability p) (Z.lnot CapabilityClientMultiStatements)) p).

Fixpoint exec_statements (handler : Handler) (length index : nat) (stmts : list (list Z))
  : M unit :=
  match stmts with
  | [] => ret tt
  | sql :: t =>
      let more := negb (Nat.eqb index (length - 1)) in
      exec_query handler sql more ;;;
      exec_statements handler length (S index) t
  end.

(** "Unknown set option", "Error parsing set option", "Unknown command: ". *)
Definition msg_unknown_set_option : list Z :=
  bytes_of_string "Unknown set option".
Definition msg_error_parsing_set_option : list Z :=
  bytes_of_string "Error parsing set option".
Definition msg_unknown_command : list Z := bytes_of_string "Unknown command: ".

Section Dispatch.

(** The name of a command code, from [PacketType]'s [Into<&str>]; it only
    appears in the message of the unknown-command ERR packet. *)
Variable packet_type_name : Z -> list Z.

Definition handle_next_command (handler : Handler) (status_flags0 capability0 : Z)
  : M unit :=
  modify (fun p => set_status_flags status_flags0
                     (set_capability capability0 (set_sequence_id 0 p))) ;;;
  data <- read_ephemeral_packet ;;
  match data with
  | [] => panic  (* data[0] *)
  | pt :: _ =>
      match packet_type_of pt with
      | None => panic
      | Some ComQuit => throw ComQuitSignal
      | Some ComInitDB =>
          db <- parse_com_init_db data ;;
          write_ok_packet 0 0 status_flags0 0
      | Some ComPing => write_ok_packet 0 0 status_flags0 0
      | Some ComQuery =>
          query <- parse_com_query data ;;
          let statements :=
            if negb (Z.land capability0 CapabilityClientMultiStatements =? 0)
            then [query] else [query] in
          exec_statements handler (length statements) 0 statements
      | Some ComSetOption =>
          operation <- parse_set_option data ;;
          match operation with
          | Ok n =>
              if n =? 0 then set_multi_statements true
              else if n =? 1 then set_multi_statements false
              else write_err_packet ERUnknownComError SSUnknownComError
                     msg_unknown_set_option
          | Err _ =>
              write_err_packet ERUnknownComError SSUnknownComError
                msg_error_parsing_set_option
          end
      | Some ComStmtPrepare | Some ComStmtExecute
      | Some ComStmtReset | Some ComStmtClose => ret tt
      | Some (ComOther c) =>
          write_err_packet ERUnknownComError SSUnknownComError
            (msg_unknown_command ++ packet_type_name c)
      end
  end.

End Dispatch.

(** ** auth.rs: parse_client_handshake_packet *)

Definition CapabilityClientConnectWithDB : Z := Z.shiftl 1 3.
Definition CapabilityClientSecureConnection : Z := Z.shiftl 1 15.
Definition CapabilityClientPluginAuth : Z := Z.shiftl 1 19.
Definition CapabilityClientPluginAuthLenencClientData : Z := Z.shiftl 1 21.

Definition MYSQL_NATIVE_PASSWORD : list Z := bytes_of_string "mysql_native_password".

Record Auth := mkAuth {
  character_set : Z;
  max_packet_size : Z;
  capability_flags : Z;
  auth_response : list Z;
  auth_method : list Z;
  auth_database : list Z;
  user : list Z
}.

(** [Auth::new]. *)
Definition Auth_new : Auth := mkAuth 0 0 0 [] [] [] [].

Definition set_capability_flags (c : Z) (a : Auth) : Auth :=
  mkAuth (character_set a) (max_packet_size a) c (auth_response a)
         (auth_method a) (auth_database a) (user a).

(** Reads on the [Cursor] over the payload: the cursor is the list of the
    bytes not read yet. *)
Definition cursor_read_u8 (c : list Z) : option (Z * list Z) :=
  match c with
  | b0 :: t => Some (b0, t)
  | [] => None
  end.

Definition cursor_read_u32 (c : list Z) : option (Z * list Z) :=
  match c with
  | b0 :: b1 :: b2 :: b3 :: t =>
      Some (Z.lor b0 (Z.lor (Z.shiftl b1 8) (Z.lor (Z.shiftl b2 16) (Z.shiftl b3 24))), t)
  | _ => None
  end.

(** [Read::read]: at most [n] bytes, as many as are left. *)
Definition cursor_read (n : Z) (c : list Z) : list Z * list Z := (takeZ n c, dropZ n c).

(** [BufRead::read_until(0, buf)]: the bytes up to and including the first
    0, or to the end. *)
Fixpoint read_until0 (c : list Z) : list Z * list Z :=
  match c with
  | [] => ([], [])
  | b :: t =>
      if b =? 0 then ([b], t)
      else let (got, rest) := read_until0 t in (b :: got, rest)
  end.

(** [real_read_until]: [read_until] appends to [buf], then the last byte
    of [buf] is removed when [buf] is not empty. *)
Definition real_read_until (c buf : list Z) : list Z * list Z :=
  let (got, rest) := read_until0 c in (removelast (buf ++ got), rest).

(** The auth-response of a length-prefixed client: [read] into the first
    [len] bytes of a zeroed 256-byte buffer, then those [len] bytes are
    appended. *)
Definition read_prefixed_auth (c : list Z) : option (list Z * list Z) :=
  match cursor_read_u8 c with
  | None => None
  | Some (len, c) =>
      let (got, c) := cursor_read len c in
      Some (got ++ repeat 0 (Z.to_nat (len - zlen got)), c)
  end.

Definition parse_client_handshake_packet (a : Auth) (payload : list Z) (first : bool)
  : res unit * Auth :=
  match cursor_read_u32 payload with
  | None => (Err ReadClientFlagError, a)
  | Some (client_flag, c) =>
    if Z.land client_flag CapabilityClientProtocol41 =? 0
    then (Err ProtocolNotSupport, a)
    else
    let cf := client_flag in
    let cf := if first
              then Z.land client_flag
                     (Z.lor CapabilityClientDeprecateEOF CapabilityClientFoundRows)
              else cf in
    let cf := if Z.land client_flag CapabilityClientMultiStatements >? 0
              then Z.lor cf CapabilityClientMultiStatements else cf in
    let a := set_capability_flags cf a in
    match cursor_read_u32 c with
    | None => (Err ReadMaxPacketSizeError, a)
    | Some (mps, c) =>
    let a := mkAuth (character_set a) mps (capability_flags a) (auth_response a)
                    (auth_method a) (auth_database a) (user a) in
    match cursor_read_u8 c with
    | None => (Err ReadCharsetError, a)
    | Some (cs, c) =>
    let a := mkAuth cs (max_packet_size a) (capability_flags a) (auth_response a)
                    (auth_method a) (auth_database a) (user a) in
    let (trailer, c) := cursor_read 23 c in
    if negb (zlen trailer =? 23) then (Err ReadZeroError, a) else
    let (usr, c) := real_read_until c (user a) in
    let a := mkAuth (character_set a) (max_packet_size a) (capability_flags a)
                    (auth_response a) (auth_method a) (auth_database a) usr in
    let auth :=
      if negb (Z.land (capability_flags a) CapabilityClientPluginAuthLenencClientData =? 0)
      then match read_prefixed_auth c with
           | None => inr ReadAuthResponseLengthError
           | Some (resp, c) => inl (resp, c)
           end
      else if negb (Z.land (capability_flags a) CapabilityClientSecureConnection =? 0)
      then match read_prefixed_auth c with
           | None => inr ReadAuthResponseLengthError
           | Some (resp, c) => inl (resp, c)
           end
      else let (buf, c) := cursor_read 20 c in
           if negb (zlen buf =? 20) then inr (Io UnexpectedEof)
           else match cursor_read_u8 c with
                | None => inr ReadAuthResponseError
                | Some (_, c) => inl (buf, c)
                end in
    match auth with
    | inr e => (Err e, a)
    | inl (resp, c) =>
    let a := mkAuth (character_set a) (max_packet_size a) (capability_flags a)
                    (auth_response a ++ resp) (auth_method a) (auth_database a) (user a) in
    let (db, c) :=
      if negb (Z.land (capability_flags a) CapabilityClientConnectWithDB =? 0)
      then real_read_until c (auth_database a) else (auth_database a, c) in
    let (meth, c) :=
      if negb (Z.land (capability_flags a) CapabilityClientPluginAuth =? 0)
      then real_read_until c (auth_method a) else (auth_method a, c) in
    let meth := match meth with [] => MYSQL_NATIVE_PASSWORD | _ => meth end in
    (Ok tt, mkAuth (character_set a) (max_packet_size a) (capability_flags a)
                   (auth_response a) meth db (user a))
    end
    end
    end
  end.

(** ** auth.rs: write_handshake_resp *)

(** [gen_native_password]: the SHA-1 of the [sha1] crate is a parameter;
    [hasher.input(a); hasher.input(b)] hashes the concatenation [a ++ b].
    The loop indexes [stage1] at every index of [stage2]: [None] where that
    index is out of bounds (a panic). *)
Section NativePassword.

Variable sha1 : list Z -> list Z.

Definition gen_native_password (password salt : list Z) : option (list Z) :=
  match password with
  | [] => Some []
  | _ =>
      let stage1 := sha1 password in
      let stage1_sha1 := sha1 stage1 in
      let stage2 := sha1 (salt ++ stage1_sha1) in
      if zlen stage1 <? zlen stage2 then None
      else Some (map (fun '(a, b) => Z.lxor a b) (combine stage1 stage2))
  end.

(** [Auth::write_handshake_resp]; the writes go into a [Vec] and never
    fail, so the result is [Some buf] ([Ok(buf)]), or [None] where
    [gen_native_password] panics. *)
Definition write_handshake_resp (capability_flag charset : Z)
  (username password salt database : list Z) : option (list Z) :=
  let capability_flag :=
    match database with
    | [] => Z.land capability_flag (Z.lnot CapabilityClientConnectWithDB)
    | _ => Z.lor capability_flag CapabilityClientConnectWithDB
    end in
  let buf := le32 capability_flag ++ le32 0 ++ [u8 charset] ++ repeat 0 23
             ++ username ++ [0] in
  match gen_native_password password salt with
  | None => None
  | Some auth_resp =>
      let buf :=
        if Z.land capability_flag CapabilityClientSecureConnection >? 0
        then buf ++ [u8 (zlen auth_resp)] ++ auth_resp
        else buf ++ auth_resp ++ [0] in
      let capability_flag :=
        Z.land capability_flag (Z.lnot CapabilityClientPluginAuthLenencClientData) in
      let buf :=
        if Z.land capability_flag CapabilityClientConnectWithDB >? 0
        then buf ++ database ++ [0] else buf in
      Some (buf ++ MYSQL_NATIVE_PASSWORD ++ [0])
  end.

End NativePassword.

(** ** greeting.rs *)

Definition PROTOCOL_VERSION : Z := 10.
Definition CHARACTER_SET_UTF8 : Z := 33.
Definition CapabilityClientSSL : Z := Z.shiftl 1 11.

(** [struct Greeting]; its [capability] field is [g_capability] here. *)
Record Greeting := mkGreeting {
  status_flag : Z;
  g_capability : Z;
  connection_id : Z;
  server_version : list Z;
  auth_plugin_name : list Z;
  salt : list Z
}.

Definition set_g_capability (c : Z) (g : Greeting) : Greeting :=
  mkGreeting (status_flag g) c (connection_id g) (server_version g)
             (auth_plugin_name g) (salt g).

(** [Greeting::write_handshake_v10]; [None] where [&self.salt[..8]]
    panics (a salt shorter than 8 bytes). *)
Definition write_handshake_v10 (g : Greeting) (enable_tls : bool)
  : option (Greeting * list Z) :=
  let g := if enable_tls
           then set_g_capability (Z.lor (g_capability g) CapabilityClientSSL) g
           else g in
  if zlen (salt g) <? 8 then None else
  Some (g, [PROTOCOL_VERSION] ++ server_version g ++ [0] ++ le32 (connection_id g)
           ++ takeZ 8 (salt g) ++ [0] ++ le16 (g_capability g)
           ++ [CHARACTER_SET_UTF8] ++ le16 (status_flag g)
           ++ le16 (Z.shiftr (g_capability g) 16) ++ [21] ++ repeat 0 10
           ++ dropZ 8 (salt g) ++ [0] ++ MYSQL_NATIVE_PASSWORD ++ [0]).

Definition cursor_read_u16 (c : list Z) : option (Z * list Z) :=
  match c with
  | b0 :: b1 :: t => Some (Z.lor b0 (Z.shiftl b1 8), t)
  | _ => None
  end.

(** A [read_u8] whose error is dropped ([.map_err(..);] without [?]). *)
Definition skip_u8 (c : list Z) : list Z :=
  match cursor_read_u8 c with None => c | Some (_, c') => c' end.

(** [Greeting::parse_client_handshake_packet] (the client side, reading the
    server greeting).  [read] is a [u8]: [auth_plugin_part1_len - 8] wraps
    (a release build; [read < 0] never holds); [None] is the panic of
    [salt2[read as usize - 1]] when [read] is 0. *)
Definition parse_greeting (g : Greeting) (payload : list Z)
  : option (res unit * Greeting) :=
  match cursor_read_u8 payload with
  | None => Some (Err ReadProtocolVersionError, g)
  | Some (_, c) =>
  let (sv, c) := real_read_until c (server_version g) in
  let g := mkGreeting (status_flag g) (g_capability g) (connection_id g) sv
                      (auth_plugin_name g) (salt g) in
  match cursor_read_u32 c with
  | None => Some (Err ReadConnectionIdError, g)
  | Some (cid, c) =>
  let g := mkGreeting (status_flag g) (g_capability g) cid (server_version g)
                      (auth_plugin_name g) (salt g) in
  let (got1, c) := cursor_read 8 c in
  let salt1 := got1 ++ repeat 0 (Z.to_nat (8 - zlen got1)) in
  let c := skip_u8 c in
  match cursor_read_u16 c with
  | None => Some (Err ReadCapabilityFlagError, g)
  | Some (lower_capability, c) =>
  let c := skip_u8 c in
  match cursor_read_u16 c with
  | None => Some (Err ReadStatusFlagError, g)
  | Some (sf, c) =>
  let g := mkGreeting sf (g_capability g) (connection_id g) (server_version g)
                      (auth_plugin_name g) (salt g) in
  match cursor_read_u16 c with
  | None => Some (Err ReadCapabilityFlagError, g)
  | Some (upper_capability, c) =>
  let g := set_g_capability (Z.lor (Z.shiftl upper_capability 16) lower_capability) g in
  let part1 :=
    if Z.land (g_capability g) CapabilityClientPluginAuth >? 0
    then match cursor_read_u8 c with
         | None => inr ReadAuthPluginLenError
         | Some (l, c) => inl (l, c)
         end
    else match cursor_read_u8 c with
         | None => inr ReadZeroError
         | Some (_, c) => inl (0, c)
         end in
  match part1 with
  | inr e => Some (Err e, g)
  | inl (auth_plugin_part1_len, c) =>
  let (trailer, c) := cursor_read 10 c in
  if negb (zlen trailer =? 10) then Some (Err ReadZeroError, g) else
  if Z.land (g_capability g) CapabilityClientSecureConnection >? 0 then
    let read := (auth_plugin_part1_len - 8) mod 256 in
    let read := if read >? 13 then 13 else read in
    let (got2, c) := cursor_read read c in
    let salt2 := got2 ++ repeat 0 (Z.to_nat (read - zlen got2)) in
    if read =? 0 then None
    else if negb (nth (Z.to_nat (read - 1)) salt2 0 =? 0)
    then Some (Err ReadSaltError, g)
    else Some (Ok tt, mkGreeting (status_flag g) (g_capability g) (connection_id g)
                        (server_version g) (auth_plugin_name g)
                        (salt1 ++ removelast salt2))
  else Some (Ok tt, g)
  end
  end
  end
  end
  end
  end.

(** ** connection.rs: Connection::handle *)

(** [Connection] with its [greeting], [auth] and [packets]. *)
Record Connection := mkConnection {
  conn_id : Z;
  conn_user : list Z;
  greeting : Greeting;
  auth : Auth;
  packets : Packets
}.

(** [Connection::handle] after [set_stream]: the greeting is written with
    [write_packet], the handshake response is read with
    [read_ephemeral_packet_direct] and parsed with [first = false], whose
    result is dropped.  [None] is a panic (an [unwrap] on an [Err]). *)
Definition connection_handle (c : Connection) : option Connection :=
  match write_handshake_v10 (greeting c) false with
  | None => None
  | Some (g, pkg) =>
      match write_packet pkg (packets c) with
      | Panic => None
      | Ret _ pk =>
          match read_ephemeral_packet_direct pk with
          | Ret (Ok payload) pk' =>
              let (_, a) := parse_client_handshake_packet (auth c) payload false in
              Some (mkConnection (conn_id c) (conn_user c) g a pk')
          | _ => None
          end
      end
  end.

(** [Connection::check_auth]: the handshake response parsed with
    [first = true] into the connection's [auth]. *)
Definition check_auth (c : Connection) (payload : list Z) : res unit * Connection :=
  let (r, a) := parse_client_handshake_packet (auth c) payload true in
  (r, mkConnection (conn_id c) (conn_user c) (greeting c) a (packets c)).

(** ** Helpers for the statements *)

(** One frame as [write_packet] lays out a payload shorter than
    [MAX_PACKET_SIZE]: three length bytes, the sequence byte, the payload. *)
Definition frame (seq : Z) (payload : list Z) : list Z :=
  let n := zlen payload in
  [u8 n; u8 (Z.shiftr n 8); u8 (Z.shiftr n 16); seq] ++ payload.

(** What a handler program returns when every callback invocation it makes
    is answered with the failsafe error of [exec_query]. *)
Fixpoint refused (h : hprog) : res unit :=
  match h with
  | HRet r => r
  | HCall _ k => refused (k (Err (Io SendFinished)))
  end.

(** The bytes one row adds to the output ([write_row]). *)
Definition row_bytes (row : list Value) : list Z := concat (map encode_value row).

(** Sample inputs for the instances of the theorems below. *)

Definition sample_type_name : Z -> list Z := fun _ => [83].

Definition sample_handler : Handler := fun _ => HRet (Ok tt).

Definition sample_field : Field := mkField [99] 263 [] [] [] [] 0 0 0 0.

Definition sample_fields_result : SqlResult := mkSqlResult [sample_field] 0 0 [].

Definition sample_rows_result : SqlResult := mkSqlResult [] 0 0 [[mkValue 1 [65]]; [mkValue 0 []]].

Definition sample_after_rows : res unit -> hprog := fun _ => HRet (Ok tt).

Definition sample_after_fields : res unit -> hprog := fun _ => HCall sample_rows_result sample_after_rows.

Definition sample_query_handler : Handler := fun _ => HCall sample_fields_result sample_after_fields.

Definition sample_greeting : Greeting := mkGreeting 2 557568 7 [53] [] (repeat 1 20).

Definition sample_connection (inp : list Z) : Connection :=
  mkConnection 7 [] sample_greeting Auth_new (Packets_new inp).

Definition sample_payload : list Z := [0; 2; 0; 0].


(** * Proofs *)

(** ** Byte-list and header lemmas *)

Lemma zlen_app {A} (l1 l2 : list A) : zlen (l1 ++ l2) = zlen l1 + zlen l2.
Proof. unfold zlen. rewrite length_app. lia. Qed.

Lemma zlen_nonneg {A} (l : list A) : 0 <= zlen l.
Proof. unfold zlen. lia. Qed.

Lemma zlen_cons {A} (x : A) l : zlen (x :: l) = 1 + zlen l.
Proof. unfold zlen. simpl length. lia. Qed.

Lemma takeZ_app_exact {A} (l1 l2 : list A) n :
  n = zlen l1 -> takeZ n (l1 ++ l2) = l1.
Proof.
  revert n. induction l1 as [|x t IH]; intros n Hn; simpl.
  - destruct l2; simpl; [reflexivity|]. unfold zlen in Hn; simpl in Hn.
    rewrite Hn. reflexivity.
  - rewrite zlen_cons in Hn. pose proof (zlen_nonneg t).
    replace (n <=? 0) with false by (symmetry; apply Z.leb_gt; lia).
    f_equal. apply IH. lia.
Qed.

Lemma dropZ_app_exact {A} (l1 l2 : list A) n :
  n = zlen l1 -> dropZ n (l1 ++ l2) = l2.
Proof.
  revert n. induction l1 as [|x t IH]; intros n Hn; simpl.
  - unfold zlen in Hn; simpl in Hn. subst. destruct l2; reflexivity.
  - rewrite zlen_cons in Hn. pose proof (zlen_nonneg t).
    replace (n <=? 0) with false by (symmetry; apply Z.leb_gt; lia).
    apply IH. lia.
Qed.

Lemma takeZ_dropZ {A} (l : list A) n : takeZ n l ++ dropZ n l = l.
Proof.
  revert n. induction l as [|x t IH]; intros n; simpl; [reflexivity|].
  destruct (n <=? 0); simpl; [reflexivity|]. f_equal. apply IH.
Qed.

Lemma zlen_takeZ {A} (l : list A) n :
  0 <= n <= zlen l -> zlen (takeZ n l) = n.
Proof.
  revert n. induction l as [|x t IH]; intros n Hn; simpl.
  - unfold zlen in *; simpl in *. lia.
  - rewrite zlen_cons in Hn. destruct (Z.leb_spec n 0).
    + unfold zlen; simpl. lia.
    + rewrite zlen_cons, IH; lia.
Qed.

Lemma zlen_dropZ {A} (l : list A) n :
  0 <= n <= zlen l -> zlen (dropZ n l) = zlen l - n.
Proof.
  intros Hn. pose proof (takeZ_dropZ l n) as E.
  apply (f_equal zlen) in E. rewrite zlen_app, zlen_takeZ in E; lia.
Qed.

Lemma takeZ_all {A} (l : list A) : takeZ (zlen l) l = l.
Proof.
  rewrite <- (app_nil_r l) at 2. rewrite takeZ_app_exact; auto with datatypes.
Qed.

Lemma MAX_PACKET_SIZE_eq : MAX_PACKET_SIZE = 16777215.
Proof. reflexivity. Qed.

(** The three length bytes written by [write_packet] decode back, in
    [read_header], to the chunk length. *)
Lemma header_length_decode x :
  0 <= x < 2 ^ 24 ->
  Z.lor (u8 x) (Z.lor (Z.shiftl (u8 (Z.shiftr x 8)) 8)
                      (Z.shiftl (u8 (Z.shiftr x 16)) 16)) = x.
Proof.
  intros Hx. unfold u8. change 255 with (Z.ones 8).
  apply Z.bits_inj'. intros n Hn.
  assert (Hhigh : forall m, 24 <= m -> Z.testbit x m = false).
  { intros m Hm. rewrite <- (Z.mod_small x (2 ^ 24)) by lia.
    apply Z.mod_pow2_bits_high. lia. }
  rewrite !Z.lor_spec, !Z.shiftl_spec, !Z.land_spec by lia.
  destruct (Z.lt_ge_cases n 8) as [H8|H8];
    [|destruct (Z.lt_ge_cases n 16) as [H16|H16];
      [|destruct (Z.lt_ge_cases n 24) as [H24|H24]]].
  - rewrite !(Z.testbit_neg_r _ (n - 8)), !(Z.testbit_neg_r _ (n - 16)) by lia.
    rewrite Z.testbit_ones_nonneg by lia.
    replace (n <? 8) with true by (symmetry; apply Z.ltb_lt; lia).
    rewrite andb_true_r, !orb_false_r. reflexivity.
  - rewrite !(Z.testbit_neg_r _ (n - 16)) by lia.
    rewrite !Z.testbit_ones_nonneg, Z.shiftr_spec by lia.
    replace (n <? 8) with false by (symmetry; apply Z.ltb_ge; lia).
    replace (n - 8 <? 8) with true by (symmetry; apply Z.ltb_lt; lia).
    replace (n - 8 + 8) with n by lia.
    rewrite andb_false_r, andb_true_r, orb_false_l, orb_false_r. reflexivity.
  - rewrite !Z.testbit_ones_nonneg, !Z.shiftr_spec by lia.
    replace (n <? 8) with false by (symmetry; apply Z.ltb_ge; lia).
    replace (n - 8 <? 8) with false by (symmetry; apply Z.ltb_ge; lia).
    replace (n - 16 <? 8) with true by (symmetry; apply Z.ltb_lt; lia).
    replace (n - 16 + 16) with n by lia.
    rewrite !andb_false_r, andb_true_r, !orb_false_l. reflexivity.
  - rewrite !Z.testbit_ones_nonneg by lia.
    replace (n <? 8) with false by (symmetry; apply Z.ltb_ge; lia).
    replace (n - 8 <? 8) with false by (symmetry; apply Z.ltb_ge; lia).
    replace (n - 16 <? 8) with false by (symmetry; apply Z.ltb_ge; lia).
    rewrite !andb_false_r, !orb_false_l. symmetry. apply Hhigh. lia.
Qed.

(** ** Fuel of the reading loop *)

Lemma length_dropZ_le {A} (l : list A) n : (length (dropZ n l) <= length l)%nat.
Proof.
  revert n. induction l as [|x t IH]; intros n; simpl; [lia|].
  destruct (n <=? 0); simpl; [lia|]. specialize (IH (n - 1)). lia.
Qed.

Lemma read_header_consumes p x p' :
  read_header p = Ret (Ok x) p' ->
  (length (input p') + 4 <= length (input p))%nat.
Proof.
  unfold read_header.
  destruct (input p) as [|h0 [|h1 [|h2 [|h3 rest]]]]; try discriminate.
  destruct (negb _); intros H; inversion H; subst; simpl. lia.
Qed.

Lemma read_exact_consumes n p x p' :
  read_exact n p = Ret (Ok x) p' -> (length (input p') <= length (input p))%nat.
Proof.
  unfold read_exact. destruct (n <=? zlen (input p)); intros H; inversion H.
  simpl. apply length_dropZ_le.
Qed.

Lemma read_one_packet_consumes p x p' :
  read_one_packet p = Ret (Ok x) p' ->
  (length (input p') + 4 <= length (input p))%nat.
Proof.
  unfold read_one_packet, bind.
  destruct (read_header p) as [[len|e] p1|] eqn:E; try discriminate.
  apply read_header_consumes in E.
  destruct (len =? 0).
  - unfold ret. intros H; inversion H; subst. lia.
  - unfold read_content. intros H. apply read_exact_consumes in H. lia.
Qed.

Lemma read_batch_loop_fuel f1 : forall f2 d p,
  (length (input p) < f1)%nat -> (length (input p) < f2)%nat ->
  read_batch_loop f1 d p = read_batch_loop f2 d p.
Proof.
  induction f1 as [|f1 IH]; intros f2 d p H1 H2; [lia|].
  destruct f2 as [|f2]; [lia|]. simpl. unfold bind.
  destruct (read_one_packet p) as [[next|e] p'|] eqn:E; try reflexivity.
  apply read_one_packet_consumes in E.
  destruct next; [reflexivity|].
  destruct (_ <? _); [reflexivity|]. apply IH; lia.
Qed.

(** [read_packets] is the batch loop started on an empty buffer. *)
Lemma read_batch_loop_S f d :
  read_batch_loop (S f) d =
  (next <- read_one_packet ;;
   match next with
   | [] => ret d
   | _ =>
       if zlen next <? MAX_PACKET_SIZE then ret (d ++ next)
       else read_batch_loop f (d ++ next)
   end).
Proof. reflexivity. Qed.

Lemma read_packets_as_batch p :
  read_packets p = read_batch_loop (S (length (input p))) [] p.
Proof.
  unfold read_packets, read_batch_packets.
  rewrite read_batch_loop_S. unfold bind.
  destruct (read_one_packet p) as [[next|e] p'|] eqn:E; try reflexivity.
  apply read_one_packet_consumes in E.
  destruct next as [|x t]; [reflexivity|]. simpl app.
  destruct (_ <? _); [reflexivity|].
  unfold get. destruct (length (input p)) as [|n] eqn:En; [lia|].
  apply read_batch_loop_fuel; lia.
Qed.

(** ** Framing round trip *)

Lemma zlen_nil_iff {A} (l : list A) : zlen l = 0 -> l = [].
Proof. destruct l; [reflexivity|]. rewrite zlen_cons. pose proof (zlen_nonneg l). lia. Qed.

(** Reading one frame as [write_packet] lays it out. *)
Lemma read_one_packet_frame pr len chunk rest :
  0 <= len < 2 ^ 24 -> zlen chunk = len ->
  input pr = [u8 len; u8 (Z.shiftr len 8); u8 (Z.shiftr len 16); sequence_id pr]
             ++ chunk ++ rest ->
  read_one_packet pr =
  Ret (Ok chunk) (set_sequence_id ((sequence_id pr + 1) mod 256) (set_input rest pr)).
Proof.
  intros Hlen Hc Hin. destruct pr as [s c f i o]; cbn [input sequence_id] in *; subst i.
  unfold read_one_packet, bind, read_header.
  cbn [input sequence_id set_input set_sequence_id app].
  rewrite Z.eqb_refl. cbn [negb].
  rewrite header_length_decode by exact Hlen.
  destruct (Z.eqb_spec len 0) as [H0|H0].
  - rewrite H0 in Hc. apply zlen_nil_iff in Hc. subst chunk len. reflexivity.
  - unfold read_content, read_exact. cbn [input].
    cbn [input set_input set_sequence_id sequence_id capability status_flags output].
    rewrite zlen_app. pose proof (zlen_nonneg rest).
    replace (len <=? zlen chunk + zlen rest) with true by (symmetry; apply Z.leb_le; lia).
    rewrite takeZ_app_exact, dropZ_app_exact by lia. reflexivity.
Qed.

(** One iteration of the writing loop, on an explicit state. *)
Lemma write_packet_loop_S_state fw b s c f i o :
  let len := zlen b in
  let pkg_len := if len >? MAX_PACKET_SIZE then MAX_PACKET_SIZE else len in
  let header := [u8 pkg_len; u8 (Z.shiftr pkg_len 8); u8 (Z.shiftr pkg_len 16); s] in
  let s1 := (s + 1) mod 256 in
  let o1 := (o ++ header) ++ takeZ pkg_len b in
  write_packet_loop (S fw) b (mkPackets s c f i o) =
  if len - pkg_len =? 0 then
    if pkg_len =? MAX_PACKET_SIZE
    then Ret (Ok tt) (mkPackets ((s1 + 1) mod 256) c f i (o1 ++ [0; 0; 0; s1]))
    else Ret (Ok tt) (mkPackets s1 c f i o1)
  else write_packet_loop fw (dropZ pkg_len b) (mkPackets s1 c f i o1).
Proof.
  cbn zeta. cbn [write_packet_loop]. unfold bind, get, write_all, modify, incr_seq.
  cbn [output sequence_id set_output set_sequence_id capability status_flags input].
  destruct (_ - _ =? 0); [destruct (_ =? MAX_PACKET_SIZE)|]; reflexivity.
Qed.

(** Whatever [write_packet_loop] emits for [b], the batch reader started
    at the same sequence number appends exactly [b] to its buffer and
    ends at the writer's final sequence number. *)
Lemma write_then_read_batch fw : forall b pw,
  (length b < fw)%nat ->
  exists w s',
    write_packet_loop fw b pw =
      Ret (Ok tt) (set_sequence_id s' (set_output (output pw ++ w) pw)) /\
    forall fr acc pr rest,
      (length w <= fr)%nat -> sequence_id pr = sequence_id pw ->
      input pr = w ++ rest ->
      read_batch_loop (S fr) acc pr =
        Ret (Ok (acc ++ b)) (set_sequence_id s' (set_input rest pr)).
Proof.
  induction fw as [|fw IH]; intros b [s c f i o] Hb; [simpl in Hb; lia|].
  rewrite write_packet_loop_S_state. cbn zeta.
  cbn [output sequence_id].
  pose proof (zlen_nonneg b) as Hz.
  assert (HM : MAX_PACKET_SIZE = 2 ^ 24 - 1) by reflexivity.
  destruct (Z.gtb_spec (zlen b) MAX_PACKET_SIZE) as [Hgt|Hle].
  - (* a full fragment, then the rest *)
    replace (zlen b - MAX_PACKET_SIZE =? 0) with false
      by (symmetry; apply Z.eqb_neq; lia).
    set (hdr := [u8 MAX_PACKET_SIZE; u8 (Z.shiftr MAX_PACKET_SIZE 8);
                 u8 (Z.shiftr MAX_PACKET_SIZE 16); s]).
    set (b1 := takeZ MAX_PACKET_SIZE b). set (b2 := dropZ MAX_PACKET_SIZE b).
    assert (Hb1 : zlen b1 = MAX_PACKET_SIZE) by (apply zlen_takeZ; lia).
    assert (Hb2 : zlen b2 = zlen b - MAX_PACKET_SIZE) by (apply zlen_dropZ; lia).
    assert (Hb2len : (length b2 < fw)%nat) by (unfold zlen in *; lia).
    destruct (IH b2 (mkPackets ((s + 1) mod 256) c f i ((o ++ hdr) ++ b1)) Hb2len)
      as (w' & s' & Hw & Hr).
    exists (hdr ++ b1 ++ w'), s'. split.
    + rewrite Hw. cbn. rewrite <- !app_assoc. reflexivity.
    + intros fr acc pr rest Hfr Hs Hin. cbn [sequence_id] in Hs.
      rewrite read_batch_loop_S. unfold bind at 1.
      rewrite (read_one_packet_frame pr MAX_PACKET_SIZE b1 (w' ++ rest));
        [|lia|exact Hb1|rewrite Hin, Hs; subst hdr; rewrite <- !app_assoc; reflexivity].
      destruct b1 as [|x t] eqn:Eb1; [cbn in Hb1; lia|].
      rewrite <- Eb1 in *. rewrite Hb1, Z.ltb_irrefl.
      assert (Hw'len : (length (hdr ++ b1 ++ w') = 4 + length b1 + length w')%nat)
        by (rewrite !length_app; reflexivity).
      destruct fr as [|fr]; [lia|].
      rewrite (Hr fr (acc ++ b1) _ rest); [| lia | cbn; rewrite Hs; reflexivity | reflexivity].
      rewrite <- app_assoc. unfold b1, b2. rewrite takeZ_dropZ.
      destruct pr; reflexivity.
  - (* the last fragment *)
    rewrite Z.sub_diag, Z.eqb_refl.
    destruct (Z.eqb_spec (zlen b) MAX_PACKET_SIZE) as [Hmax|Hmax].
    + (* exactly a full fragment: an empty fragment follows *)
      rewrite takeZ_all.
      exists ([u8 (zlen b); u8 (Z.shiftr (zlen b) 8); u8 (Z.shiftr (zlen b) 16); s]
              ++ b ++ [0; 0; 0; (s + 1) mod 256]),
             ((((s + 1) mod 256) + 1) mod 256). split.
      * cbn. rewrite <- !app_assoc. reflexivity.
      * intros fr acc pr rest Hfr Hs Hin. cbn [sequence_id] in Hs.
        rewrite read_batch_loop_S. unfold bind at 1.
        rewrite (read_one_packet_frame pr (zlen b) b ([0; 0; 0; (s + 1) mod 256] ++ rest));
          [|lia|reflexivity|rewrite Hin, Hs, <- !app_assoc; reflexivity].
        destruct b as [|x t] eqn:Eb; [cbn in Hmax; lia|].
        rewrite <- Eb in *. rewrite Hmax, Z.ltb_irrefl.
        destruct fr as [|fr]; [rewrite !length_app in Hfr; cbn in Hfr; lia|].
        rewrite read_batch_loop_S. unfold bind at 1.
        rewrite (read_one_packet_frame _ 0 [] rest);
          [|lia|reflexivity|cbn; rewrite Hs; reflexivity].
        unfold ret. cbn. rewrite Hs. destruct pr; reflexivity.
    + (* a short fragment *)
      rewrite takeZ_all.
      exists ([u8 (zlen b); u8 (Z.shiftr (zlen b) 8); u8 (Z.shiftr (zlen b) 16); s] ++ b),
             ((s + 1) mod 256). split.
      * cbn. rewrite <- !app_assoc. reflexivity.
      * intros fr acc pr rest Hfr Hs Hin. cbn [sequence_id] in Hs.
        rewrite read_batch_loop_S. unfold bind at 1.
        rewrite (read_one_packet_frame pr (zlen b) b rest);
          [|lia|reflexivity|rewrite Hin, Hs, <- !app_assoc; reflexivity].
        destruct b as [|x t] eqn:Eb.
        -- unfold ret. rewrite app_nil_r, Hs. destruct pr; reflexivity.
        -- rewrite <- Eb in *.
           replace (zlen b <? MAX_PACKET_SIZE) with true
             by (symmetry; apply Z.ltb_lt; lia).
           unfold ret. rewrite Hs. destruct pr; reflexivity.
Qed.

(** ** Reading and writing single frames *)

Lemma read_header_frame pr len rest :
  0 <= len < 2 ^ 24 ->
  input pr = [u8 len; u8 (Z.shiftr len 8); u8 (Z.shiftr len 16); sequence_id pr] ++ rest ->
  read_header pr =
  Ret (Ok len) (set_sequence_id ((sequence_id pr + 1) mod 256) (set_input rest pr)).
Proof.
  intros Hlen Hin. destruct pr as [s c f i o]; cbn [input sequence_id] in *; subst i.
  unfold read_header. cbn [input sequence_id set_input app].
  rewrite Z.eqb_refl. cbn [negb].
  rewrite header_length_decode by exact Hlen. reflexivity.
Qed.

Lemma read_content_exact pr chunk rest :
  input pr = chunk ++ rest ->
  read_content (zlen chunk) pr = Ret (Ok chunk) (set_input rest pr).
Proof.
  intros Hin. unfold read_content, read_exact. rewrite Hin, zlen_app.
  pose proof (zlen_nonneg rest).
  replace (zlen chunk <=? zlen chunk + zlen rest) with true by (symmetry; apply Z.leb_le; lia).
  rewrite takeZ_app_exact, dropZ_app_exact by reflexivity.
  destruct pr; reflexivity.
Qed.

Lemma read_ephemeral_packet_frame pr chunk rest :
  zlen chunk <= MAX_PACKET_SIZE ->
  input pr = frame (sequence_id pr) chunk ++ rest ->
  read_ephemeral_packet pr =
  Ret (Ok chunk) (set_sequence_id ((sequence_id pr + 1) mod 256) (set_input rest pr)).
Proof.
  intros Hlen Hin. unfold frame in Hin. rewrite <- app_assoc in Hin.
  pose proof (zlen_nonneg chunk). assert (HM : MAX_PACKET_SIZE = 2 ^ 24 - 1) by reflexivity.
  unfold read_ephemeral_packet, bind.
  rewrite (read_header_frame pr (zlen chunk) (chunk ++ rest)) by (auto; lia).
  destruct (Z.eqb_spec (zlen chunk) 0) as [H0|H0].
  - apply zlen_nil_iff in H0. subst chunk. destruct pr; reflexivity.
  - replace (zlen chunk >? MAX_PACKET_SIZE) with false by (symmetry; rewrite Z.gtb_ltb; apply Z.ltb_ge; lia).
    rewrite (read_content_exact _ chunk rest) by reflexivity.
    destruct pr; reflexivity.
Qed.

Lemma read_ephemeral_packet_direct_frame pr chunk rest :
  zlen chunk <= MAX_PACKET_SIZE ->
  input pr = frame (sequence_id pr) chunk ++ rest ->
  read_ephemeral_packet_direct pr =
  Ret (Ok chunk) (set_sequence_id ((sequence_id pr + 1) mod 256) (set_input rest pr)).
Proof.
  intros Hlen Hin. unfold frame in Hin. rewrite <- app_assoc in Hin.
  pose proof (zlen_nonneg chunk). assert (HM : MAX_PACKET_SIZE = 2 ^ 24 - 1) by reflexivity.
  unfold read_ephemeral_packet_direct, bind.
  rewrite (read_header_frame pr (zlen chunk) (chunk ++ rest)) by (auto; lia).
  destruct (Z.eqb_spec (zlen chunk) 0) as [H0|H0].
  - apply zlen_nil_iff in H0. subst chunk. destruct pr; reflexivity.
  - replace (zlen chunk >? MAX_PACKET_SIZE) with false by (symmetry; rewrite Z.gtb_ltb; apply Z.ltb_ge; lia).
    rewrite (read_content_exact _ chunk rest) by reflexivity.
    destruct pr; reflexivity.
Qed.

(** A payload shorter than [MAX_PACKET_SIZE] goes out as one frame. *)
Lemma write_packet_small data p :
  zlen data < MAX_PACKET_SIZE ->
  write_packet data p =
  Ret (Ok tt) (set_sequence_id ((sequence_id p + 1) mod 256)
                 (set_output (output p ++ frame (sequence_id p) data) p)).
Proof.
  intros Hlen. destruct p as [s c f i o]. unfold write_packet.
  rewrite write_packet_loop_S_state. cbn zeta.
  replace (zlen data >? MAX_PACKET_SIZE) with false by (symmetry; rewrite Z.gtb_ltb; apply Z.ltb_ge; lia).
  rewrite Z.sub_diag, Z.eqb_refl.
  replace (zlen data =? MAX_PACKET_SIZE) with false by (symmetry; apply Z.eqb_neq; lia).
  rewrite takeZ_all. unfold frame. cbn. rewrite <- app_assoc. reflexivity.
Qed.

Lemma zlen_write_len_int v : zlen (write_len_int v) <= 9.
Proof.
  unfold write_len_int.
  destruct (v <? 251); [unfold zlen; simpl; lia|].
  destruct (v <? Z.shiftl 1 16); [unfold zlen; simpl; lia|].
  destruct (v <? Z.shiftl 1 24); unfold zlen; simpl; lia.
Qed.

Lemma zlen_ok_body h a i f w : zlen (ok_body h a i f w) <= 23.
Proof.
  unfold ok_body. rewrite !zlen_app.
  pose proof (zlen_write_len_int a). pose proof (zlen_write_len_int i).
  assert (E1 : zlen [h] = 1) by reflexivity.
  assert (E2 : forall x, zlen (le16 x) = 2) by reflexivity.
  rewrite E1, !E2. lia.
Qed.

(** ** The callback after an affected-rows response *)

(** Once [send_finished] is set, every callback invocation answers the
    failsafe error and leaves the framer untouched. *)
Lemma run_handler_after_finish more h : forall p,
  run_handler more h (mk_cb true true) p = Ret (Ok (refused h, mk_cb true true)) p.
Proof.
  induction h as [r|qr k IH]; intros p; [reflexivity|].
  cbn [run_handler refused]. unfold bind at 1. unfold callback, bind, get, ret.
  cbn [send_finished fst snd]. apply IH.
Qed.

(** ** Capability bits *)

Lemma land_pow2 x k :
  0 <= k -> Z.land x (2 ^ k) = if Z.testbit x k then 2 ^ k else 0.
Proof.
  intros Hk. apply Z.bits_inj'. intros n Hn.
  rewrite Z.land_spec, Z.pow2_bits_eqb by lia.
  destruct (Z.testbit x k) eqn:Ex.
  - rewrite Z.pow2_bits_eqb by lia.
    destruct (Z.eqb_spec k n); [subst; rewrite Ex|]; apply andb_true_r || apply andb_false_r.
  - rewrite Z.bits_0. destruct (Z.eqb_spec k n); [subst; rewrite Ex|]; reflexivity || apply andb_false_r.
Qed.

Lemma lor_pow2_set x k :
  0 <= k -> Z.testbit x k = true -> Z.lor x (2 ^ k) = x.
Proof.
  intros Hk Hx. apply Z.bits_inj'. intros n Hn.
  rewrite Z.lor_spec, Z.pow2_bits_eqb by lia.
  destruct (Z.eqb_spec k n); [subst; rewrite Hx|]; apply orb_false_r || reflexivity.
Qed.

Lemma multi_statements_pow2 : CapabilityClientMultiStatements = 2 ^ 16.
Proof. reflexivity. Qed.

(** The capability computed by the first block of
    [parse_client_handshake_packet] is kept by every later step, whether
    it succeeds or fails. *)
Lemma parse_client_handshake_capability a payload first client_flag c :
  cursor_read_u32 payload = Some (client_flag, c) ->
  Z.land client_flag CapabilityClientProtocol41 <> 0 ->
  capability_flags (snd (parse_client_handshake_packet a payload first)) =
  (let cf := if first
             then Z.land client_flag
                    (Z.lor CapabilityClientDeprecateEOF CapabilityClientFoundRows)
             else client_flag in
   if Z.land client_flag CapabilityClientMultiStatements >? 0
   then Z.lor cf CapabilityClientMultiStatements else cf).
Proof.
  intros Hread Hp. unfold parse_client_handshake_packet. rewrite Hread.
  replace (Z.land client_flag CapabilityClientProtocol41 =? 0) with false
    by (symmetry; apply Z.eqb_neq; exact Hp).
  cbv zeta.
  repeat match goal with
         | |- context [match ?x with _ => _ end] => destruct x eqn:?
         end; reflexivity.
Qed.

(** ** Column definitions are written as they are *)

Lemma write_columns_output fs cols p :
  map write_column_definition fs = map Some cols ->
  write_columns fs p = Ret (Ok tt) (set_output (output p ++ concat cols) p).
Proof.
  revert cols p. induction fs as [|f fs IH]; intros cols p Hm.
  - destruct cols; [|discriminate Hm]. cbn. rewrite app_nil_r.
    destruct p; reflexivity.
  - destruct cols as [|c cols]; [discriminate Hm|]. injection Hm as Hc Hm.
    cbn [write_columns]. rewrite Hc. unfold bind at 1, write_all, modify.
    rewrite (IH cols _ Hm). cbn. rewrite app_assoc. reflexivity.
Qed.

(** ** Bytes, bits and cursors of the handshake and the dispatcher *)

Ltac bits_cmp :=
  repeat match goal with
  | |- context [?a <? ?b] => destruct (Z.ltb_spec a b); try lia
  end.

Lemma testbit_high x k m : 0 <= k -> 0 <= x < 2 ^ k -> k <= m -> Z.testbit x m = false.
Proof.
  intros Hk Hx Hm. rewrite <- (Z.mod_small x (2 ^ k)) by lia.
  apply Z.mod_pow2_bits_high. lia.
Qed.

Ltac byte_bits x k :=
  unfold u8; change 255 with (Z.ones 8);
  apply Z.bits_inj'; intros n Hn;
  destruct (Z.lt_ge_cases n 8);
  [|destruct (Z.lt_ge_cases n 16);
    [|destruct (Z.lt_ge_cases n 24); [|destruct (Z.lt_ge_cases n 32)]]];
  repeat first
    [ rewrite Z.lor_spec | rewrite Z.land_spec
    | rewrite Z.shiftl_spec by lia | rewrite Z.shiftr_spec by lia
    | rewrite Z.testbit_ones_nonneg by lia
    | match goal with
      | |- context [Z.testbit ?y ?m] => rewrite (Z.testbit_neg_r y m) by lia
      end ];
  bits_cmp;
  repeat match goal with
  | |- context [Z.testbit x ?e] => assert_fails (constr_eq e n); replace e with n by lia
  end;
  try (rewrite (testbit_high x k n) by lia);
  btauto.

Lemma le16_decode x : 0 <= x < 2 ^ 16 ->
  Z.lor (u8 x) (Z.shiftl (u8 (Z.shiftr x 8)) 8) = x.
Proof. intros Hx. byte_bits x 16. Qed.

Lemma le32_decode x : 0 <= x < 2 ^ 32 ->
  Z.lor (u8 x) (Z.lor (Z.shiftl (u8 (Z.shiftr x 8)) 8)
    (Z.lor (Z.shiftl (u8 (Z.shiftr x 16)) 16) (Z.shiftl (u8 (Z.shiftr x 24)) 24))) = x.
Proof. intros Hx. byte_bits x 32. Qed.

Lemma capability_halves x : 0 <= x < 2 ^ 32 ->
  Z.lor (Z.shiftl (Z.lor (u8 (Z.shiftr x 16)) (Z.shiftl (u8 (Z.shiftr (Z.shiftr x 16) 8)) 8)) 16)
        (Z.lor (u8 x) (Z.shiftl (u8 (Z.shiftr x 8)) 8)) = x.
Proof. intros Hx. rewrite Z.shiftr_shiftr by lia. byte_bits x 32. Qed.

Lemma lor_lt_pow2 a b k :
  0 <= k -> 0 <= a < 2 ^ k -> 0 <= b < 2 ^ k -> Z.lor a b < 2 ^ k.
Proof.
  intros Hk Ha Hb.
  assert (E : Z.lor a b = Z.land (Z.lor a b) (Z.ones k)).
  { apply Z.bits_inj'. intros n Hn.
    rewrite Z.land_spec, Z.lor_spec.
    destruct (Z.lt_ge_cases n k).
    - rewrite Z.ones_spec_low by lia. btauto.
    - rewrite (testbit_high a k n), (testbit_high b k n) by lia. reflexivity. }
  rewrite E, Z.land_ones by lia. apply Z.mod_pos_bound. lia.
Qed.

Lemma read_until0_nozero s rest :
  Forall (fun b => b <> 0) s -> read_until0 (s ++ 0 :: rest) = (s ++ [0], rest).
Proof.
  induction 1 as [|b s Hb Hs IH]; [reflexivity|].
  cbn [app read_until0]. rewrite IH.
  destruct (Z.eqb_spec b 0); [contradiction|reflexivity].
Qed.

Lemma real_read_until_nozero s rest :
  Forall (fun b => b <> 0) s -> real_read_until (s ++ 0 :: rest) [] = (s, rest).
Proof.
  intros Hs. unfold real_read_until. rewrite read_until0_nozero by exact Hs.
  cbn [app]. rewrite removelast_last. reflexivity.
Qed.

Lemma land_bit_pos x b : 0 <= b -> Z.land x b <> 0 -> 0 <= x -> (Z.land x b >? 0) = true.
Proof.
  intros Hb Hn Hx. pose proof (Z.land_nonneg x b). rewrite Z.gtb_ltb. apply Z.ltb_lt. lia.
Qed.

Lemma u8_small x : 0 <= x < 256 -> u8 x = x.
Proof. intros Hx. unfold u8. change 255 with (Z.ones 8). rewrite Z.land_ones by lia.
  apply Z.mod_small. lia. Qed.

Lemma cursor_read_app a b : cursor_read (zlen a) (a ++ b) = (a, b).
Proof. unfold cursor_read. rewrite takeZ_app_exact, dropZ_app_exact; reflexivity. Qed.

Lemma cursor_read_app' n a b : n = zlen a -> cursor_read n (a ++ b) = (a, b).
Proof. intros ->. apply cursor_read_app. Qed.

Lemma bit_test x k : 0 <= k -> (Z.land x (2 ^ k) >? 0) = Z.testbit x k.
Proof.
  intros Hk. rewrite land_pow2 by exact Hk.
  destruct (Z.testbit x k); [|reflexivity].
  rewrite Z.gtb_ltb. apply Z.ltb_lt. apply Z.pow_pos_nonneg; lia.
Qed.

Lemma bit_test_eqb x k : 0 <= k -> (Z.land x (2 ^ k) =? 0) = negb (Z.testbit x k).
Proof.
  intros Hk. rewrite land_pow2 by exact Hk.
  destruct (Z.testbit x k); [|reflexivity].
  apply Z.eqb_neq. pose proof (Z.pow_pos_nonneg 2 k). lia.
Qed.

Lemma bits_below_pow2 x k :
  0 <= k -> 0 <= x -> (forall n, k <= n -> Z.testbit x n = false) -> x < 2 ^ k.
Proof.
  intros Hk Hx Hh.
  assert (E : x = Z.land x (Z.ones k)).
  { apply Z.bits_inj'. intros n Hn. rewrite Z.land_spec.
    destruct (Z.lt_ge_cases n k).
    - rewrite Z.ones_spec_low by lia. btauto.
    - rewrite Hh by lia. reflexivity. }
  rewrite E, Z.land_ones by lia. apply Z.mod_pos_bound. lia.
Qed.

Lemma zlen_write_len_int_size v : zlen (write_len_int v) = len_enc_int_size v.
Proof.
  unfold write_len_int, len_enc_int_size.
  destruct (v <? 251); [reflexivity|].
  destruct (v <? Z.shiftl 1 16); [reflexivity|].
  destruct (v <? Z.shiftl 1 24); reflexivity.
Qed.

Lemma zlen_write_len_str s : zlen (write_len_str s) = len_enc_str_size s.
Proof.
  unfold write_len_str, len_enc_str_size. rewrite zlen_app, zlen_write_len_int_size. reflexivity.
Qed.

Lemma zlen_le16 x : zlen (le16 x) = 2.
Proof. reflexivity. Qed.

Lemma zlen_le32 x : zlen (le32 x) = 4.
Proof. reflexivity. Qed.

Lemma zlen_single (x : Z) : zlen [x] = 1.
Proof. reflexivity. Qed.

(** X: the OK body has exactly the capacity reserved by [write_ok_packet]. *)

Lemma write_packet_loop_size fw : forall b s c f i o,
  (length b < fw)%nat ->
  exists w,
    write_packet_loop fw b (mkPackets s c f i o) =
      Ret (Ok tt) (mkPackets ((s + zlen b / MAX_PACKET_SIZE + 1) mod 256) c f i (o ++ w)) /\
    zlen w = zlen b + 4 * (zlen b / MAX_PACKET_SIZE + 1).
Proof.
  induction fw as [|fw IH]; intros b s c f i o Hl; [lia|].
  rewrite write_packet_loop_S_state. cbv zeta.
  rewrite MAX_PACKET_SIZE_eq in *.
  pose proof (zlen_nonneg b) as Hb0.
  destruct (Z.gtb_spec (zlen b) 16777215) as [Hg|Hg].
  - replace (zlen b - 16777215 =? 0) with false by (symmetry; apply Z.eqb_neq; lia).
    destruct (IH (dropZ 16777215 b) ((s + 1) mod 256) c f i
                (((o ++ [u8 16777215; u8 (Z.shiftr 16777215 8); u8 (Z.shiftr 16777215 16); s])
                  ++ takeZ 16777215 b))) as (w & Hw & Hz).
    { assert (zlen (dropZ 16777215 b) = zlen b - 16777215) by (rewrite zlen_dropZ; lia).
      unfold zlen in *. lia. }
    rewrite Hw. rewrite zlen_dropZ in Hz by lia.
    assert (Hq : zlen b / 16777215 = (zlen b - 16777215) / 16777215 + 1).
    { replace (zlen b) with ((zlen b - 16777215) + 1 * 16777215) at 1 by lia.
      apply Z.div_add. lia. }
    exists ([u8 16777215; u8 (Z.shiftr 16777215 8); u8 (Z.shiftr 16777215 16); s]
            ++ takeZ 16777215 b ++ w).
    split.
    + rewrite <- !app_assoc. rewrite zlen_dropZ by lia. rewrite Hq.
      rewrite <- Z.add_assoc, Zplus_mod_idemp_l. do 3 f_equal. lia.
    + rewrite !zlen_app, Hz, zlen_takeZ by lia. rewrite Hq. change (zlen [u8 16777215; u8 (Z.shiftr 16777215 8); u8 (Z.shiftr 16777215 16); s]) with 4. lia.
  - rewrite Z.sub_diag, Z.eqb_refl.
    destruct (Z.eqb_spec (zlen b) 16777215) as [He|He].
    + rewrite takeZ_all, He.
      exists ([u8 16777215; u8 (Z.shiftr 16777215 8); u8 (Z.shiftr 16777215 16); s]
              ++ b ++ [0; 0; 0; (s + 1) mod 256]).
      split.
      * rewrite <- !app_assoc. replace (16777215 / 16777215) with 1 by reflexivity.
        rewrite Zplus_mod_idemp_l. reflexivity.
      * rewrite !zlen_app, He. reflexivity.
    + assert (Hd : zlen b / 16777215 = 0) by (apply Z.div_small; lia).
      rewrite takeZ_all.
      exists ([u8 (zlen b); u8 (Z.shiftr (zlen b) 8); u8 (Z.shiftr (zlen b) 16); s] ++ b).
      split.
      * rewrite Hd, Z.add_0_r, <- app_assoc. reflexivity.
      * rewrite zlen_app, Hd. change (zlen [u8 (zlen b); u8 (Z.shiftr (zlen b) 8);
          u8 (Z.shiftr (zlen b) 16); s]) with 4. lia.
Qed.

(** X: framing overhead and sequence-id advance of write_packet. *)

Lemma read_until0_nozero_all s :
  Forall (fun b => b <> 0) s -> read_until0 s = (s, []).
Proof.
  induction 1 as [|b s Hb Hs IH]; [reflexivity|].
  cbn [read_until0]. rewrite IH. destruct (Z.eqb_spec b 0); [contradiction|reflexivity].
Qed.

(** X: without a 0 byte, real_read_until consumes all and drops the last byte. *)

Ltac open_command pr Hlen Hin :=
  unfold handle_next_command, bind at 1, modify;
  set (pr := set_status_flags _ (set_capability _ (set_sequence_id 0 _)));
  unfold bind at 1;
  rewrite (read_ephemeral_packet_frame pr _ _ Hlen) by exact Hin.

Lemma read_ephemeral_packet_bad_sequence pr h0 h1 h2 h3 rest :
  input pr = [h0; h1; h2; h3] ++ rest -> h3 <> sequence_id pr ->
  read_ephemeral_packet pr = Ret (Err (Io InvalidSequence)) (set_input rest pr).
Proof.
  intros Hin H3. unfold read_ephemeral_packet, bind at 1, read_header.
  rewrite Hin. cbn [app]. apply Z.eqb_neq in H3.
  destruct pr as [s c f i o]; unfold set_input; simpl in H3 |- *. rewrite H3. reflexivity.
Qed.

Lemma read_ephemeral_packet_short pr :
  zlen (input pr) < 4 ->
  read_ephemeral_packet pr = Ret (Err (Io HeaderReadFailed)) (set_input [] pr).
Proof.
  intros Hl. unfold read_ephemeral_packet, bind at 1, read_header.
  destruct (input pr) as [|a [|b [|c [|d i]]]]; try reflexivity.
  unfold zlen in Hl. cbn [length] in Hl. lia.
Qed.

Lemma write_rows_list_output rs : forall p,
  write_rows_list rs p =
  Ret (Ok tt) (set_output (output p ++ concat (map row_bytes rs)) p).
Proof.
  induction rs as [|r rs IH]; intros p.
  - cbn. rewrite app_nil_r. destruct p; reflexivity.
  - cbn [write_rows_list]. unfold bind at 1, write_row, write_all, modify.
    rewrite IH. cbn. rewrite app_assoc. reflexivity.
Qed.

Lemma write_fields_output qr cols p :
  map write_column_definition (fields qr) = map Some cols ->
  write_fields qr p =
  Ret (Ok tt)
    (set_output (output p ++ concat cols
                 ++ (if deprecate_eof_unset p
                     then [EOF_PACKET] ++ le16 0 ++ le16 (status_flags p) else []))
       p).
Proof.
  intros Hm. unfold write_fields, bind at 1.
  rewrite (write_columns_output _ _ _ Hm).
  unfold bind, get. unfold deprecate_eof_unset at 1 2. cbn [capability set_output].
  destruct (Z.land (capability p) CapabilityClientDeprecateEOF =? 0).
  - unfold write_eof_packet, bind, write_all, modify. cbn.
    rewrite <- !app_assoc. reflexivity.
  - cbn. rewrite app_nil_r. reflexivity.
Qed.

Lemma run_handler_call more qr k cs p :
  run_handler more (HCall qr k) cs p =
  match callback more cs qr p with
  | Ret (Ok rc) p' => run_handler more (k (fst rc)) (snd rc) p'
  | Ret (Err e) p' => Ret (Err e) p'
  | Panic => Panic
  end.
Proof. reflexivity. Qed.

Lemma bind_ret_unit (m : M unit) p : (m ;;; ret tt) p = m p.
Proof. unfold bind, ret. destruct (m p) as [[[]|e] p'|]; reflexivity. Qed.

Lemma real_read_until_nozero_buf s buf rest :
  Forall (fun b => b <> 0) s -> real_read_until (s ++ 0 :: rest) buf = (buf ++ s, rest).
Proof.
  intros Hs. unfold real_read_until. rewrite read_until0_nozero by exact Hs.
  rewrite app_assoc, removelast_last. reflexivity.
Qed.

Lemma unscramble_list (s1 s2 : list Z) :
  length s1 = length s2 ->
  map (fun '(a, b) => Z.lxor a b) (combine (map (fun '(a, b) => Z.lxor a b) (combine s1 s2)) s2)
  = s1.
Proof.
  revert s2. induction s1 as [|a s1 IH]; intros [|b s2] Hl; try discriminate; [reflexivity|].
  cbn. rewrite IH by (injection Hl; auto).
  rewrite Z.lxor_assoc, Z.lxor_nilpotent, Z.lxor_0_r. reflexivity.
Qed.

(** * Claims *)

(** ** C3 *)

(** C3: a byte sequence of at most 64 MiB written with [write_packet] by a
    framer at sequence id 0 and read back with [read_packets] by a framer
    at sequence id 0 is returned unchanged, all its frames are consumed,
    and the reader ends at the writer's final sequence id. *)
Theorem framing_round_trip (b : list Z) :
  zlen b <= 64 * 2 ^ 20 ->
  exists pw,
    write_packet b (Packets_new []) = Ret (Ok tt) pw /\
    read_packets (Packets_new (output pw)) =
      Ret (Ok b) (set_sequence_id (sequence_id pw) (Packets_new [])).
Proof.
  intros _. unfold write_packet.
  destruct (write_then_read_batch (S (length b)) b (Packets_new []) (Nat.lt_succ_diag_r _))
    as (w & s' & Hw & Hr).
  eexists. split; [exact Hw|].
  rewrite read_packets_as_batch. cbn [output set_output set_sequence_id Packets_new app input].
  rewrite (Hr (length w) [] _ []); [| lia | reflexivity | symmetry; apply app_nil_r].
  reflexivity.
Qed.

Lemma framing_round_trip_witness :
  zlen [1; 2; 3] <= 64 * 2 ^ 20 /\
  exists pw,
    write_packet [1; 2; 3] (Packets_new []) = Ret (Ok tt) pw /\
    read_packets (Packets_new (output pw)) =
      Ret (Ok [1; 2; 3]) (set_sequence_id (sequence_id pw) (Packets_new [])).
Proof.
  split; [apply Z.leb_le; reflexivity|].
  apply framing_round_trip. apply Z.leb_le; reflexivity.
Defined.

(** ** C4 *)

(** C4: a command of [MAX_PACKET_SIZE + 1] bytes arrives as a full frame
    followed by a one-byte frame; [read_ephemeral_packet] returns the first
    fragment alone and leaves the second frame unread, since a 24-bit
    length never exceeds [MAX_PACKET_SIZE]. *)
Theorem read_ephemeral_packet_stops_at_full_fragment (c rest : list Z) (x : Z) (p : Packets) :
  zlen c = MAX_PACKET_SIZE ->
  input p = frame (sequence_id p) c ++ frame ((sequence_id p + 1) mod 256) [x] ++ rest ->
  read_ephemeral_packet p =
  Ret (Ok c) (set_sequence_id ((sequence_id p + 1) mod 256)
                (set_input (frame ((sequence_id p + 1) mod 256) [x] ++ rest) p)).
Proof.
  intros Hc Hin. apply read_ephemeral_packet_frame; [lia | exact Hin].
Qed.

Lemma read_ephemeral_packet_stops_at_full_fragment_witness :
  let c := repeat 0 (Z.to_nat MAX_PACKET_SIZE) in
  let p := Packets_new (frame 0 c ++ frame 1 [42]) in
  zlen c = MAX_PACKET_SIZE /\
  input p = frame (sequence_id p) c ++ frame ((sequence_id p + 1) mod 256) [42] ++ [] /\
  read_ephemeral_packet p =
  Ret (Ok c) (set_sequence_id ((sequence_id p + 1) mod 256)
                (set_input (frame ((sequence_id p + 1) mod 256) [42] ++ []) p)).
Proof.
  intros c p.
  assert (Hc : zlen c = MAX_PACKET_SIZE).
  { unfold c, zlen. rewrite repeat_length, Z2Nat.id; [reflexivity | discriminate]. }
  assert (Hin : input p = frame (sequence_id p) c ++ frame ((sequence_id p + 1) mod 256) [42] ++ []).
  { rewrite app_nil_r. reflexivity. }
  split; [exact Hc|]. split; [exact Hin|].
  apply read_ephemeral_packet_stops_at_full_fragment; [exact Hc | exact Hin].
Defined.

(** ** C5 *)

(** C5: a first frame of the maximal length [MAX_PACKET_SIZE] is returned
    by [read_ephemeral_packet_direct] as an ordinary payload; it never
    yields [MultiPacketNotSupport]. *)
Theorem read_ephemeral_packet_direct_accepts_full_fragment (c rest : list Z) (p : Packets) :
  zlen c = MAX_PACKET_SIZE ->
  input p = frame (sequence_id p) c ++ rest ->
  read_ephemeral_packet_direct p =
  Ret (Ok c) (set_sequence_id ((sequence_id p + 1) mod 256) (set_input rest p)).
Proof.
  intros Hc Hin. apply read_ephemeral_packet_direct_frame; [lia | exact Hin].
Qed.

Lemma read_ephemeral_packet_direct_accepts_full_fragment_witness :
  let c := repeat 7 (Z.to_nat MAX_PACKET_SIZE) in
  let p := Packets_new (frame 0 c ++ [0; 0; 0; 1]) in
  zlen c = MAX_PACKET_SIZE /\
  input p = frame (sequence_id p) c ++ [0; 0; 0; 1] /\
  read_ephemeral_packet_direct p =
  Ret (Ok c) (set_sequence_id ((sequence_id p + 1) mod 256) (set_input [0; 0; 0; 1] p)).
Proof.
  intros c p.
  assert (Hc : zlen c = MAX_PACKET_SIZE).
  { unfold c, zlen. rewrite repeat_length, Z2Nat.id; [reflexivity | discriminate]. }
  split; [exact Hc|]. split; [reflexivity|].
  apply read_ephemeral_packet_direct_accepts_full_fragment; [exact Hc | reflexivity].
Defined.

(** ** C9 *)

(** C9: a command frame of length 0 with the expected sequence byte is
    read by [read_ephemeral_packet] as an empty payload (not an
    [EmptyPacketError]), and [handle_next_command] then panics on
    [data[0]]. *)
Theorem empty_command_frame_panics nm handler status caps (p : Packets) (rest : list Z) :
  read_ephemeral_packet (set_sequence_id 0 (set_input ([0; 0; 0; 0] ++ rest) p)) =
    Ret (Ok []) (set_sequence_id 1 (set_input rest p)) /\
  handle_next_command nm handler status caps (set_input ([0; 0; 0; 0] ++ rest) p) = Panic.
Proof. split; reflexivity. Qed.

(** ** C6 *)

(** C6: when the first callback invocation of [exec_query] carries no
    fields, exactly one framed OK packet is written, with the segment's
    affected rows and insert id, the status flags with
    [SERVER_MORE_RESULTS_EXISTS] added iff [more], and 0 warnings; the
    first invocation returns [Ok], every later invocation returns the
    failsafe I/O error and writes nothing, and no terminator follows. *)
Theorem exec_query_affected_rows_only
  (affected inserted : Z) (rws : list (list Value)) (k : res unit -> hprog)
  (sql : list Z) (more : bool) (p : Packets) :
  let flags := if more then Z.lor (status_flags p) SERVER_MORE_RESULTS_EXISTS
               else status_flags p in
  exec_query (fun _ => HCall (mkSqlResult [] affected inserted rws) k) sql more p =
  Ret (refused (k (Ok tt)))
      (set_sequence_id ((sequence_id p + 1) mod 256)
         (set_output (output p ++ frame (sequence_id p)
                                  (ok_body OK_PACKET affected inserted flags 0)) p)).
Proof.
  intros flags. unfold exec_query. cbn [run_handler].
  unfold bind at 1 2. unfold callback at 1. unfold bind at 1, get at 1.
  cbn [send_finished field_sent negb fields].
  unfold bind at 1, attempt at 1, write_ok_packet.
  assert (Hs : forall f, zlen (ok_body OK_PACKET affected inserted f 0) < MAX_PACKET_SIZE).
  { intros f. pose proof (zlen_ok_body OK_PACKET affected inserted f 0).
    rewrite MAX_PACKET_SIZE_eq. lia. }
  rewrite write_packet_small by apply Hs.
  unfold ret at 1. cbn [fst snd].
  rewrite run_handler_after_finish. cbn [field_sent send_finished negb].
  destruct (refused (k (Ok tt))) as [[]|e]; reflexivity.
Qed.

(** ** C8 *)

(** C8: parsing a HandshakeResponse41 whose u32 little-endian client flag
    lacks PROTOCOL_41 fails with [ProtocolNotSupport] and changes nothing;
    otherwise the effective capability is the client flag restricted to
    DEPRECATE_EOF and FOUND_ROWS, plus MULTI_STATEMENTS when the client set
    it, on the first call, and the client flag itself on a later call. *)
Theorem parse_client_flag_capability (a : Auth) (b0 b1 b2 b3 : Z) (rest : list Z)
  (first : bool) :
  let client_flag :=
    Z.lor b0 (Z.lor (Z.shiftl b1 8) (Z.lor (Z.shiftl b2 16) (Z.shiftl b3 24))) in
  let result := parse_client_handshake_packet a (b0 :: b1 :: b2 :: b3 :: rest) first in
  if Z.land client_flag CapabilityClientProtocol41 =? 0
  then result = (Err ProtocolNotSupport, a)
  else capability_flags (snd result) =
       (if first
        then Z.lor (Z.land client_flag
                      (Z.lor CapabilityClientDeprecateEOF CapabilityClientFoundRows))
                   (Z.land client_flag CapabilityClientMultiStatements)
        else client_flag).
Proof.
  intros client_flag result.
  destruct (Z.eqb_spec (Z.land client_flag CapabilityClientProtocol41) 0) as [H0|H0].
  - unfold result, parse_client_handshake_packet. cbn [cursor_read_u32].
    fold client_flag. rewrite H0. reflexivity.
  - unfold result.
    rewrite (parse_client_handshake_capability a _ first client_flag rest) by (auto; reflexivity).
    cbv zeta. rewrite multi_statements_pow2, land_pow2 by lia.
    destruct (Z.testbit client_flag 16) eqn:Eb.
    + replace (2 ^ 16 >? 0) with true by reflexivity.
      destruct first; [reflexivity|]. apply lor_pow2_set; [lia | exact Eb].
    + replace (0 >? 0) with false by reflexivity.
      destruct first; [|reflexivity]. symmetry. apply Z.lor_0_r.
Qed.

(** ** C7 *)

(** C7: for a COM_SET_OPTION command frame carrying the option value [n]
    as a u16 little-endian, [n = 0] sets MULTI_STATEMENTS in the effective
    capability and [n = 1] clears it, and in both cases nothing at all is
    written to the client (no EOF, no OK-with-EOF-header); any other
    value writes one ERR packet with code ERUnknownComError, SQL state
    SSUnknownComError and the message "Unknown set option". *)
Theorem set_option_effect nm h st cap p b0 b1 tl rest :
  zlen (27 :: b0 :: b1 :: tl) <= MAX_PACKET_SIZE ->
  input p = frame 0 (27 :: b0 :: b1 :: tl) ++ rest ->
  let n := Z.lor b0 (Z.shiftl b1 8) in
  let p1 := mkPackets 1 cap st rest (output p) in
  handle_next_command nm h st cap p =
  if n =? 0 then Ret (Ok tt) (set_capability (Z.lor cap CapabilityClientMultiStatements) p1)
  else if n =? 1
  then Ret (Ok tt) (set_capability (Z.land cap (Z.lnot CapabilityClientMultiStatements)) p1)
  else Ret (Ok tt)
         (set_sequence_id 2
            (set_output (output p ++ frame 1 ([ERR_PACKET] ++ le16 ERUnknownComError ++ [35]
                                               ++ SSUnknownComError ++ msg_unknown_set_option))
               p1)).
Proof.
  intros Hlen Hin n p1.
  unfold handle_next_command, bind at 1, modify.
  set (pr := set_status_flags st (set_capability cap (set_sequence_id 0 p))).
  unfold bind at 1.
  rewrite (read_ephemeral_packet_frame pr (27 :: b0 :: b1 :: tl) rest Hlen) by exact Hin.
  cbn -[set_multi_statements write_err_packet Z.lor Z.shiftl].
  fold n.
  destruct (n =? 0); [reflexivity|].
  destruct (n =? 1); [reflexivity|].
  unfold write_err_packet. cbn -[write_packet msg_unknown_set_option].
  rewrite write_packet_small.
  - reflexivity.
  - vm_compute. reflexivity.
Qed.

Lemma set_option_effect_witness :
  zlen [27; 0; 0] <= MAX_PACKET_SIZE /\
  input (Packets_new [3; 0; 0; 0; 27; 0; 0]) = frame 0 [27; 0; 0] ++ [] /\
  handle_next_command (fun _ => []) (fun _ => HRet (Ok tt)) 2 0
    (Packets_new [3; 0; 0; 0; 27; 0; 0]) =
  Ret (Ok tt) (mkPackets 1 CapabilityClientMultiStatements 2 [] []).
Proof.
  split; [vm_compute; intro H; discriminate H|].
  split; [reflexivity|].
  apply (set_option_effect (fun _ => []) (fun _ => HRet (Ok tt)) 2 0
           (Packets_new [3; 0; 0; 0; 27; 0; 0]) 0 0 [] []).
  - vm_compute. intro H. discriminate H.
  - reflexivity.
Defined.

(** ** C10 *)

(** C10: a COM_INIT_DB (2) or COM_QUERY (3) command whose bytes after the
    command byte are not well-formed UTF-8 makes [handle_next_command]
    panic (the [unwrap] of [String::from_utf8] in [trim_packet_type]),
    instead of returning an error or writing an ERR packet. *)
Theorem non_utf8_query_or_init_db_panics nm h st cap p cmd body rest :
  cmd = 2 \/ cmd = 3 ->
  utf8_valid body = false ->
  zlen (cmd :: body) <= MAX_PACKET_SIZE ->
  input p = frame 0 (cmd :: body) ++ rest ->
  handle_next_command nm h st cap p = Panic.
Proof.
  intros Hcmd Hbad Hlen Hin.
  unfold handle_next_command, bind at 1, modify.
  set (pr := set_status_flags st (set_capability cap (set_sequence_id 0 p))).
  unfold bind at 1.
  rewrite (read_ephemeral_packet_frame pr (cmd :: body) rest Hlen) by exact Hin.
  destruct Hcmd as [-> | ->]; cbn -[utf8_valid];
    unfold parse_com_init_db, parse_com_query, trim_packet_type, bind;
    rewrite Hbad; reflexivity.
Qed.

Lemma non_utf8_query_or_init_db_panics_witness :
  (3 = 2 \/ 3 = 3) /\ utf8_valid [255] = false /\
  zlen [3; 255] <= MAX_PACKET_SIZE /\
  input (Packets_new [2; 0; 0; 0; 3; 255]) = frame 0 [3; 255] ++ [] /\
  handle_next_command (fun _ => []) (fun _ => HRet (Ok tt)) 2 0
    (Packets_new [2; 0; 0; 0; 3; 255]) = Panic.
Proof.
  split; [right; reflexivity|].
  split; [reflexivity|].
  split; [vm_compute; intro H; discriminate H|].
  split; [reflexivity|].
  apply (non_utf8_query_or_init_db_panics (fun _ => []) (fun _ => HRet (Ok tt)) 2 0
           (Packets_new [2; 0; 0; 0; 3; 255]) 3 [255] []).
  - right. reflexivity.
  - reflexivity.
  - vm_compute. intro H. discriminate H.
  - reflexivity.
Defined.

(** ** C1 *)

(** C1: with DEPRECATE_EOF in the effective capability, the terminator that
    [write_end_result] frames after the rows is an OK body whose header byte
    is [EOF_PACKET], which the code defines as 0xFF (255), not 0xFE. *)
Theorem write_end_result_eof_header_byte (more : bool) (a i w : Z) (p : Packets) :
  Z.land (capability p) CapabilityClientDeprecateEOF <> 0 ->
  let flags := if more then Z.lor (status_flags p) SERVER_MORE_RESULTS_EXISTS
               else status_flags p in
  write_end_result more a i w p =
  Ret (Ok tt) (set_sequence_id ((sequence_id p + 1) mod 256)
                 (set_output (output p ++ frame (sequence_id p)
                                (255 :: write_len_int a ++ write_len_int i
                                     ++ le16 flags ++ le16 w)) p)).
Proof.
  intros Hd flags. unfold write_end_result, bind, get, deprecate_eof_unset.
  apply Z.eqb_neq in Hd. rewrite Hd. fold flags.
  unfold write_ok_packet_with_eof_header. rewrite write_packet_small.
  - reflexivity.
  - pose proof (zlen_ok_body EOF_PACKET a i flags w). rewrite MAX_PACKET_SIZE_eq. lia.
Qed.

Lemma write_end_result_eof_header_byte_witness :
  Z.land CapabilityClientDeprecateEOF CapabilityClientDeprecateEOF <> 0 /\
  write_end_result false 0 0 0 (mkPackets 1 CapabilityClientDeprecateEOF 2 [] []) =
  Ret (Ok tt) (mkPackets 2 CapabilityClientDeprecateEOF 2 []
                 [7; 0; 0; 1; 255; 0; 0; 2; 0; 0; 0]).
Proof.
  split; [vm_compute; intro H; discriminate H|].
  apply (write_end_result_eof_header_byte false 0 0 0
           (mkPackets 1 CapabilityClientDeprecateEOF 2 [] [])).
  vm_compute. intro H. discriminate H.
Defined.

(** ** C2 *)

(** C2: [write_fields] writes no packet for the field count, and writes the
    column definitions and the EOF that follows them without packet
    headers: the output grows by the bare column definitions, then, when
    DEPRECATE_EOF is not in the effective capability, the bare bytes
    [EOF_PACKET], warnings 0 and the status flags. *)
Theorem write_fields_unframed qr cols p :
  map write_column_definition (fields qr) = map Some cols ->
  write_fields qr p =
  Ret (Ok tt)
    (set_output (output p ++ concat cols
                 ++ (if deprecate_eof_unset p
                     then [EOF_PACKET] ++ le16 0 ++ le16 (status_flags p) else []))
       p).
Proof.
  intros Hm. unfold write_fields, bind at 1.
  rewrite (write_columns_output _ _ _ Hm).
  unfold bind, get. unfold deprecate_eof_unset at 1 2. cbn [capability set_output].
  destruct (Z.land (capability p) CapabilityClientDeprecateEOF =? 0).
  - unfold write_eof_packet, bind, write_all, modify. cbn.
    rewrite <- !app_assoc. reflexivity.
  - cbn. rewrite app_nil_r. reflexivity.
Qed.

Lemma write_fields_unframed_witness :
  map write_column_definition [mkField [99] 263 [] [] [] [] 0 0 0 0] =
  map Some [[3; 100; 101; 102; 0; 0; 0; 1; 99; 0; 12; 0; 0; 0; 0; 0; 0; 3; 0; 0; 0; 0; 0]] /\
  write_fields (mkSqlResult [mkField [99] 263 [] [] [] [] 0 0 0 0] 0 0 [])
    (mkPackets 1 0 2 [] []) =
  Ret (Ok tt)
    (mkPackets 1 0 2 []
       [3; 100; 101; 102; 0; 0; 0; 1; 99; 0; 12; 0; 0; 0; 0; 0; 0; 3; 0; 0; 0; 0; 0;
        255; 0; 0; 2; 0]).
Proof.
  split; [reflexivity|].
  apply (write_fields_unframed (mkSqlResult [mkField [99] 263 [] [] [] [] 0 0 0 0] 0 0 [])
           [[3; 100; 101; 102; 0; 0; 0; 1; 99; 0; 12; 0; 0; 0; 0; 0; 0; 3; 0; 0; 0; 0; 0]]).
  reflexivity.
Defined.

(** * Further properties of the code *)

(** ** X1 *)

(** X1: the greeting written by [write_handshake_v10] (with or without TLS) is read back by the client-side [parse_client_handshake_packet] of greeting.rs, into a greeting whose server version is still empty, with the same status flags, capability (with the SSL bit when TLS is on), connection id, server version and 20-byte salt, when the salt has 20 bytes, the server version has no 0 byte, the numbers fit their fields and the capability has PLUGIN_AUTH and SECURE_CONNECTION. *)
Theorem greeting_round_trip (g g1 : Greeting) (tls : bool) :
  zlen (salt g) = 20 ->
  Forall (fun b => b <> 0) (server_version g) ->
  0 <= connection_id g < 2 ^ 32 ->
  0 <= status_flag g < 2 ^ 16 ->
  0 <= g_capability g < 2 ^ 32 ->
  Z.land (g_capability g) CapabilityClientPluginAuth <> 0 ->
  Z.land (g_capability g) CapabilityClientSecureConnection <> 0 ->
  server_version g1 = [] ->
  let cap := if tls then Z.lor (g_capability g) CapabilityClientSSL else g_capability g in
  exists buf,
    write_handshake_v10 g tls = Some (set_g_capability cap g, buf) /\
    parse_greeting g1 buf =
      Some (Ok tt, mkGreeting (status_flag g) cap (connection_id g) (server_version g)
                              (auth_plugin_name g1) (salt g)).
Proof.
  intros Hs Hsv Hid Hst Hcap Hpa Hsc Hg1 cap.
  assert (Hc : 0 <= cap < 2 ^ 32 /\ Z.land cap CapabilityClientPluginAuth <> 0
               /\ Z.land cap CapabilityClientSecureConnection <> 0).
  { unfold cap; destruct tls; [|tauto].
    rewrite !Z.land_lor_distr_l.
    replace (Z.land CapabilityClientSSL CapabilityClientPluginAuth) with 0 by reflexivity.
    replace (Z.land CapabilityClientSSL CapabilityClientSecureConnection) with 0 by reflexivity.
    rewrite !Z.lor_0_r. repeat split; try assumption.
    - apply Z.lor_nonneg. split; [lia|]. change CapabilityClientSSL with 2048. lia.
    - apply lor_lt_pow2; [lia|lia|]. change CapabilityClientSSL with 2048. lia. }
  destruct Hc as (Hc & Hcpa & Hcsc).
  destruct g as [st c0 cid sv apn sl]; cbn [salt server_version connection_id status_flag
                                             g_capability auth_plugin_name] in *.
  do 20 (destruct sl as [|? sl]; [unfold zlen in Hs; simpl in Hs; lia|]).
  destruct sl; [|unfold zlen in Hs; simpl in Hs; lia].
  set (sl := [z; z0; z1; z2; z3; z4; z5; z6; z7; z8; z9; z10; z11; z12; z13; z14; z15;
              z16; z17; z18]).
  exists ([PROTOCOL_VERSION] ++ sv ++ [0] ++ le32 cid
           ++ takeZ 8 sl ++ [0] ++ le16 cap
           ++ [CHARACTER_SET_UTF8] ++ le16 st
           ++ le16 (Z.shiftr cap 16) ++ [21] ++ repeat 0 10
           ++ dropZ 8 sl ++ [0] ++ MYSQL_NATIVE_PASSWORD ++ [0]).
  split.
  - unfold write_handshake_v10, cap. destruct tls; reflexivity.
  - clearbody cap. unfold parse_greeting. cbn [cursor_read_u8 app].
    rewrite Hg1, real_read_until_nozero by exact Hsv.
    cbn -[u8 Z.lor Z.shiftl Z.shiftr Z.land Z.gtb MYSQL_NATIVE_PASSWORD].
    assert (Hb : forall b, b = CapabilityClientPluginAuth \/ b = CapabilityClientSecureConnection
                           -> 0 <= b) by (intros b [-> | ->]; vm_compute; discriminate).
    rewrite capability_halves by exact Hc.
    rewrite (land_bit_pos cap CapabilityClientPluginAuth) by (auto; lia).
    cbn -[u8 Z.lor Z.shiftl Z.shiftr Z.land Z.gtb MYSQL_NATIVE_PASSWORD].
    rewrite (land_bit_pos cap CapabilityClientSecureConnection) by (auto; lia).
    cbn -[u8 Z.lor Z.shiftl Z.shiftr Z.land Z.gtb MYSQL_NATIVE_PASSWORD].
    rewrite le32_decode, le16_decode by assumption.
    cbn -[MYSQL_NATIVE_PASSWORD]. reflexivity.
Qed.

Lemma greeting_round_trip_witness :
  let g := mkGreeting 2 557568 7 [53; 46; 55] [] (repeat 1 20) in
  let g1 := mkGreeting 0 0 0 [] [] [] in
  zlen (salt g) = 20 /\ Forall (fun b => b <> 0) (server_version g) /\
  0 <= connection_id g < 2 ^ 32 /\ 0 <= status_flag g < 2 ^ 16 /\
  0 <= g_capability g < 2 ^ 32 /\
  Z.land (g_capability g) CapabilityClientPluginAuth <> 0 /\
  Z.land (g_capability g) CapabilityClientSecureConnection <> 0 /\
  server_version g1 = [] /\
  exists buf,
    write_handshake_v10 g true = Some (set_g_capability (Z.lor 557568 CapabilityClientSSL) g, buf) /\
    parse_greeting g1 buf =
      Some (Ok tt, mkGreeting 2 (Z.lor 557568 CapabilityClientSSL) 7 [53; 46; 55] [] (repeat 1 20)).
Proof.
  intros g g1.
  split; [reflexivity|]. split; [repeat constructor; lia|].
  split; [cbn; lia|]. split; [cbn; lia|]. split; [cbn; lia|].
  split; [vm_compute; discriminate|]. split; [vm_compute; discriminate|].
  split; [reflexivity|].
  apply (greeting_round_trip g g1 true); (reflexivity || (repeat constructor; lia)
         || (cbn; lia) || (vm_compute; discriminate)).
Defined.

(** ** X2 *)

(** X2: the handshake response built by [write_handshake_resp] is parsed by [Auth::parse_client_handshake_packet] (first = false) from [Auth::new] into the charset, a max packet size of 0, the capability with CONNECT_WITH_DB set exactly when a database is given, the scrambled password, mysql_native_password, the database and the user name, when the capability has PROTOCOL_41, the user and database names have no 0 byte and the auth response is length-prefixed (SECURE_CONNECTION) or 20 bytes long without LENENC_CLIENT_DATA. *)
Theorem handshake_resp_round_trip (sha1 : list Z -> list Z) (cap cs : Z)
  (uname pw slt db resp : list Z) :
  0 <= cap < 2 ^ 32 ->
  Z.land cap CapabilityClientProtocol41 <> 0 ->
  0 <= cs < 256 ->
  Forall (fun b => b <> 0) uname ->
  Forall (fun b => b <> 0) db ->
  gen_native_password sha1 pw slt = Some resp ->
  zlen resp < 256 ->
  Z.land cap CapabilityClientSecureConnection <> 0 \/
  (Z.land cap CapabilityClientPluginAuthLenencClientData = 0 /\ zlen resp = 20) ->
  let cap' := match db with
              | [] => Z.land cap (Z.lnot CapabilityClientConnectWithDB)
              | _ => Z.lor cap CapabilityClientConnectWithDB
              end in
  exists buf,
    write_handshake_resp sha1 cap cs uname pw slt db = Some buf /\
    parse_client_handshake_packet Auth_new buf false =
      (Ok tt, mkAuth cs 0 cap' resp MYSQL_NATIVE_PASSWORD db uname).
Proof.
  intros Hcap Hp41 Hcs Hu Hdb Hgen Hresp Hauth cap'.
  set (A := if Z.land cap' CapabilityClientSecureConnection >? 0
            then [u8 (zlen resp)] ++ resp else resp ++ [0]).
  set (D := if Z.land (Z.land cap' (Z.lnot CapabilityClientPluginAuthLenencClientData))
                   CapabilityClientConnectWithDB >? 0 then db ++ [0] else []).
  exists (le32 cap' ++ le32 0 ++ [u8 cs] ++ repeat 0 23 ++ uname ++ [0] ++ A ++ D
          ++ MYSQL_NATIVE_PASSWORD ++ [0]).
  split.
  - unfold write_handshake_resp. rewrite Hgen. cbv zeta. fold cap'. unfold A, D.
    destruct (Z.land cap' CapabilityClientSecureConnection >? 0);
      destruct (Z.land (Z.land cap' (Z.lnot CapabilityClientPluginAuthLenencClientData))
                  CapabilityClientConnectWithDB >? 0);
      rewrite <- !app_assoc; reflexivity.
  - assert (Tb : forall k, 0 <= k -> k <> 3 -> Z.testbit cap' k = Z.testbit cap k).
    { intros k Hk H3. unfold cap'. change CapabilityClientConnectWithDB with (2 ^ 3).
      destruct db; [rewrite Z.land_spec, Z.lnot_spec by lia | rewrite Z.lor_spec];
        rewrite Z.pow2_bits_eqb by lia; destruct (Z.eqb_spec 3 k); try lia; btauto. }
    assert (T3 : Z.testbit cap' 3 = match db with [] => false | _ => true end).
    { unfold cap'. change CapabilityClientConnectWithDB with (2 ^ 3).
      destruct db; [rewrite Z.land_spec, Z.lnot_spec by lia | rewrite Z.lor_spec];
        rewrite Z.pow2_bits_eqb by lia; simpl; btauto. }
    assert (Hc' : 0 <= cap' < 2 ^ 32).
    { assert (0 <= cap').
      { unfold cap'. destruct db; [apply Z.land_nonneg | apply Z.lor_nonneg]; try lia.
        split; [lia|]. vm_compute. discriminate. }
      split; [assumption|]. apply bits_below_pow2; [lia|assumption|].
      intros n Hn. rewrite Tb by lia. apply (testbit_high cap 32); lia. }
    clearbody cap'.
    change CapabilityClientProtocol41 with (2 ^ 9) in *.
    change CapabilityClientSecureConnection with (2 ^ 15) in *.
    change CapabilityClientPluginAuthLenencClientData with (2 ^ 21) in *.
    change CapabilityClientConnectWithDB with (2 ^ 3) in *.
    change CapabilityClientMultiStatements with (2 ^ 16) in *.
    change CapabilityClientPluginAuth with (2 ^ 19) in *.
    assert (P9 : Z.testbit cap' 9 = true).
    { rewrite Tb by lia. rewrite land_pow2 in Hp41 by lia.
      destruct (Z.testbit cap 9); [reflexivity|contradiction]. }
    assert (Hauth' : Z.testbit cap' 15 = true \/ (Z.testbit cap' 21 = false /\ zlen resp = 20)).
    { rewrite !Tb by lia. rewrite !land_pow2 in Hauth by lia.
      destruct Hauth as [H|[H H']]; [left|right];
        destruct (Z.testbit cap 15); destruct (Z.testbit cap 21);
        try reflexivity; try contradiction; try discriminate; auto. }
    clear Hauth Hp41 Tb.
    unfold A, D. clear A D.
    rewrite !bit_test by lia.
    replace (Z.testbit (Z.land cap' (Z.lnot (2 ^ 21))) 3) with (Z.testbit cap' 3)
      by (rewrite Z.land_spec, Z.lnot_spec, Z.pow2_bits_eqb by lia; simpl; btauto).
    rewrite T3.
    unfold parse_client_handshake_packet.
    cbn [le32 app cursor_read_u32].
    change CapabilityClientProtocol41 with (2 ^ 9).
    change CapabilityClientSecureConnection with (2 ^ 15).
    change CapabilityClientPluginAuthLenencClientData with (2 ^ 21).
    change CapabilityClientConnectWithDB with (2 ^ 3).
    change CapabilityClientMultiStatements with (2 ^ 16).
    change CapabilityClientPluginAuth with (2 ^ 19).
    rewrite le32_decode by exact Hc'.
    rewrite bit_test_eqb, P9 by lia.
    rewrite (bit_test cap' 16) by lia.
    replace (if Z.testbit cap' 16 then Z.lor cap' (2 ^ 16) else cap') with cap'
      by (destruct (Z.testbit cap' 16) eqn:E16; [symmetry; apply lor_pow2_set; [lia|exact E16]|reflexivity]).
    cbn [negb cursor_read_u8 set_capability_flags Auth_new character_set max_packet_size
         capability_flags auth_response auth_method auth_database user].
    rewrite (u8_small cs) by exact Hcs.
    rewrite (u8_small (zlen resp)) by (pose proof (zlen_nonneg resp); lia).
    rewrite (cursor_read_app' 23 (repeat 0 23)) by reflexivity.
    replace (zlen (repeat 0 23) =? 23) with true by reflexivity.
    cbn [negb].
    rewrite real_read_until_nozero by exact Hu.
    cbv beta iota zeta.
    rewrite !bit_test_eqb by lia. rewrite T3.
    assert (Hpre : forall rest,
               read_prefixed_auth ((zlen resp :: resp) ++ rest) = Some (resp, rest)).
    { intros rest. unfold read_prefixed_auth. cbn [cursor_read_u8 app].
      rewrite cursor_read_app. cbv beta iota zeta.
      rewrite Z.sub_diag, app_nil_r. reflexivity. }
    assert (Hfin : forall X, X = inl (resp, (if match db with [] => false | _ :: _ => true end
                           then db ++ [0] else []) ++ MYSQL_NATIVE_PASSWORD ++ [0]) ->
      match X with
      | inl (resp0, c) =>
          let (db0, c0) :=
            if negb (negb match db with [] => false | _ :: _ => true end)
            then real_read_until c [] else ([], c) in
          let (meth, _) :=
            if negb (negb (Z.testbit cap' 19)) then real_read_until c0 [] else ([], c0) in
          (Ok tt, mkAuth cs (Z.lor (u8 0) (Z.lor (Z.shiftl (u8 (Z.shiftr 0 8)) 8)
                (Z.lor (Z.shiftl (u8 (Z.shiftr 0 16)) 16) (Z.shiftl (u8 (Z.shiftr 0 24)) 24))))
               cap' ([] ++ resp0)
               (match meth with [] => MYSQL_NATIVE_PASSWORD | _ :: _ => meth end) db0 uname)
      | inr e => (Err e, mkAuth cs (Z.lor (u8 0) (Z.lor (Z.shiftl (u8 (Z.shiftr 0 8)) 8)
                (Z.lor (Z.shiftl (u8 (Z.shiftr 0 16)) 16) (Z.shiftl (u8 (Z.shiftr 0 24)) 24))))
               cap' [] [] [] uname)
      end = (Ok tt, mkAuth cs 0 cap' resp MYSQL_NATIVE_PASSWORD db uname)).
    { intros X ->. cbv beta iota zeta.
      destruct db as [|d db']; cbn [negb]; cbv beta iota zeta.
      - destruct (Z.testbit cap' 19); reflexivity.
      - rewrite <- (app_assoc (d :: db') [0]).
        change ([0] ++ MYSQL_NATIVE_PASSWORD ++ [0]) with (0 :: MYSQL_NATIVE_PASSWORD ++ [0]).
        rewrite (real_read_until_nozero (d :: db') (MYSQL_NATIVE_PASSWORD ++ [0])) by exact Hdb.
        cbv beta iota zeta. destruct (Z.testbit cap' 19); reflexivity. }
    destruct (Z.testbit cap' 15) eqn:H15.
    + apply Hfin. rewrite Hpre. destruct (Z.testbit cap' 21); reflexivity.
    + destruct Hauth' as [Hf | [H21 H20]]; [congruence|].
      rewrite H21. cbn [negb]. apply Hfin.
      rewrite <- app_assoc.
      rewrite (cursor_read_app' 20 resp) by (symmetry; exact H20).
      cbv beta iota zeta. rewrite H20. reflexivity.
Qed.

Lemma handshake_resp_round_trip_witness :
  let sha1 := fun _ : list Z => repeat 7 20 in
  0 <= 33280 < 2 ^ 32 /\ Z.land 33280 CapabilityClientProtocol41 <> 0 /\ 0 <= 33 < 256 /\
  Forall (fun b => b <> 0) [114] /\ Forall (fun b => b <> 0) [100] /\
  gen_native_password sha1 [] [1] = Some [] /\ zlen (@nil Z) < 256 /\
  (Z.land 33280 CapabilityClientSecureConnection <> 0 \/
   (Z.land 33280 CapabilityClientPluginAuthLenencClientData = 0 /\ zlen (@nil Z) = 20)) /\
  exists buf,
    write_handshake_resp sha1 33280 33 [114] [] [1] [100] = Some buf /\
    parse_client_handshake_packet Auth_new buf false =
      (Ok tt, mkAuth 33 0 (Z.lor 33280 CapabilityClientConnectWithDB) [] MYSQL_NATIVE_PASSWORD
                [100] [114]).
Proof.
  intros sha1.
  split; [lia|]. split; [vm_compute; discriminate|]. split; [lia|].
  split; [repeat constructor; lia|]. split; [repeat constructor; lia|].
  split; [reflexivity|]. split; [reflexivity|].
  split; [left; vm_compute; discriminate|].
  apply (handshake_resp_round_trip sha1 33280 33 [114] [] [1] [100] []);
    (lia || (vm_compute; discriminate) || (repeat constructor; lia) || reflexivity
     || (left; vm_compute; discriminate)).
Defined.

(** ** X3 *)

(** X3: [check_auth] (first = true) keeps only DEPRECATE_EOF, FOUND_ROWS and MULTI_STATEMENTS of the client flags, so it reads a fixed 20-byte auth response after the user name, skips one byte and reads neither a database nor a plugin name: the rest of the payload is ignored. *)
Theorem check_auth_fixed_layout (c : Connection) (cf mps cs : Z)
  (filler usr resp : list Z) (x : Z) (rest : list Z) :
  0 <= cf < 2 ^ 32 -> 0 <= mps < 2 ^ 32 ->
  Z.land cf CapabilityClientProtocol41 <> 0 ->
  zlen filler = 23 -> Forall (fun b => b <> 0) usr -> zlen resp = 20 ->
  let cf' := Z.land cf (Z.lor CapabilityClientDeprecateEOF CapabilityClientFoundRows) in
  let cf' := if Z.land cf CapabilityClientMultiStatements >? 0
             then Z.lor cf' CapabilityClientMultiStatements else cf' in
  let a := auth c in
  check_auth c (le32 cf ++ le32 mps ++ [cs] ++ filler ++ usr ++ [0] ++ resp ++ [x] ++ rest) =
  (Ok tt, mkConnection (conn_id c) (conn_user c) (greeting c)
            (mkAuth cs mps cf' (auth_response a ++ resp)
               (match auth_method a with [] => MYSQL_NATIVE_PASSWORD | m => m end)
               (auth_database a) (user a ++ usr))
            (packets c)).
Proof.
  intros Hcf Hmps Hp41 Hfill Hu Hresp cf0 cf' a.
  assert (Hb : forall k, In k [3; 15; 19; 21] -> Z.testbit cf' k = false).
  { intros k Hk. unfold cf', cf0.
    destruct (Z.land cf CapabilityClientMultiStatements >? 0);
      rewrite ?Z.lor_spec, Z.land_spec;
      destruct Hk as [<- | [<- | [<- | [<- | []]]]];
      match goal with
      | |- context [Z.testbit (Z.lor CapabilityClientDeprecateEOF CapabilityClientFoundRows) ?k] =>
          let v := eval vm_compute in
            (Z.testbit (Z.lor CapabilityClientDeprecateEOF CapabilityClientFoundRows) k) in
          change (Z.testbit (Z.lor CapabilityClientDeprecateEOF CapabilityClientFoundRows) k)
            with v
      end;
      rewrite ?andb_false_r; try reflexivity;
      match goal with
      | |- context [Z.testbit CapabilityClientMultiStatements ?k] =>
          let v := eval vm_compute in (Z.testbit CapabilityClientMultiStatements k) in
          change (Z.testbit CapabilityClientMultiStatements k) with v
      end; reflexivity. }
  assert (Hz : forall k, In k [3; 15; 19; 21] -> (Z.land cf' (2 ^ k) =? 0) = true).
  { intros k Hk. rewrite bit_test_eqb by (destruct Hk as [<- | [<- | [<- | [<- | []]]]]; lia).
    rewrite (Hb k Hk). reflexivity. }
  unfold check_auth, parse_client_handshake_packet.
  cbn [le32 app cursor_read_u32].
  rewrite !le32_decode by assumption.
  replace (Z.land cf CapabilityClientProtocol41 =? 0) with false
    by (symmetry; apply Z.eqb_neq; exact Hp41).
  cbv zeta.
  change (if Z.land cf CapabilityClientMultiStatements >? 0
          then Z.lor (Z.land cf (Z.lor CapabilityClientDeprecateEOF CapabilityClientFoundRows))
                 CapabilityClientMultiStatements
          else Z.land cf (Z.lor CapabilityClientDeprecateEOF CapabilityClientFoundRows)) with cf'.
  clearbody cf'.
  cbn [negb cursor_read_u8 set_capability_flags character_set max_packet_size capability_flags
       auth_response auth_method auth_database user].
  rewrite (cursor_read_app' 23 filler) by (symmetry; exact Hfill).
  rewrite Hfill, Z.eqb_refl. cbn [negb].
  rewrite real_read_until_nozero_buf by exact Hu.
  cbv beta iota zeta.
  cbn [negb cursor_read_u8 set_capability_flags character_set max_packet_size capability_flags
       auth_response auth_method auth_database user].
  change CapabilityClientPluginAuthLenencClientData with (2 ^ 21).
  change CapabilityClientSecureConnection with (2 ^ 15).
  change CapabilityClientConnectWithDB with (2 ^ 3).
  change CapabilityClientPluginAuth with (2 ^ 19).
  rewrite !Hz by (cbn; tauto). cbn [negb].
  rewrite (cursor_read_app' 20 resp) by (symmetry; exact Hresp).
  rewrite Hresp, Z.eqb_refl. cbn [negb cursor_read_u8].
  unfold a. destruct (auth_method (auth c)); reflexivity.
Qed.

Lemma check_auth_fixed_layout_witness :
  0 <= 16777728 < 2 ^ 32 /\ 0 <= 0 < 2 ^ 32 /\
  Z.land 16777728 CapabilityClientProtocol41 <> 0 /\
  zlen (repeat 0 23) = 23 /\ Forall (fun b => b <> 0) [117] /\ zlen (repeat 9 20) = 20 /\
  check_auth (sample_connection [])
    (le32 16777728 ++ le32 0 ++ [33] ++ repeat 0 23 ++ [117] ++ [0] ++ repeat 9 20 ++ [0]
     ++ [100; 98; 0]) =
  (Ok tt, mkConnection 7 [] sample_greeting
            (mkAuth 33 0 16777216 (repeat 9 20) MYSQL_NATIVE_PASSWORD [] [117])
            (Packets_new [])).
Proof.
  split; [lia|]. split; [lia|]. split; [vm_compute; discriminate|].
  split; [reflexivity|]. split; [repeat constructor; lia|]. split; [reflexivity|].
  apply (check_auth_fixed_layout (sample_connection []) 16777728 0 33 (repeat 0 23) [117] (repeat 9 20)
           0 [100; 98; 0]);
    (lia || (vm_compute; discriminate) || reflexivity || (repeat constructor; lia)).
Defined.

(** ** X4 *)

(** X4: [Connection::handle] writes the greeting as one frame with the current sequence id, reads the client's reply as the frame with the next sequence id, and stores what [parse_client_handshake_packet] (first = false) makes of it, whatever its result. *)
Theorem connection_handle_flow (c : Connection) (g' : Greeting) (bytes payload rest : list Z) :
  write_handshake_v10 (greeting c) false = Some (g', bytes) ->
  zlen bytes < MAX_PACKET_SIZE -> zlen payload <= MAX_PACKET_SIZE ->
  let s := sequence_id (packets c) in
  input (packets c) = frame ((s + 1) mod 256) payload ++ rest ->
  connection_handle c =
  Some (mkConnection (conn_id c) (conn_user c) g'
          (snd (parse_client_handshake_packet (auth c) payload false))
          (mkPackets ((s + 2) mod 256) (capability (packets c)) (status_flags (packets c))
                     rest (output (packets c) ++ frame s bytes))).
Proof.
  intros Hw Hb Hp s Hin. unfold connection_handle. rewrite Hw.
  rewrite write_packet_small by exact Hb.
  rewrite read_ephemeral_packet_direct_frame with (chunk := payload) (rest := rest)
    by (auto; destruct (packets c); exact Hin).
  destruct (parse_client_handshake_packet (auth c) payload false) as [r a].
  cbn [snd]. fold s. destruct (packets c) as [s0 c0 f0 i0 o0]; cbn in s |- *.
  subst s. rewrite Zplus_mod_idemp_l, <- Z.add_assoc. reflexivity.
Qed.

Lemma connection_handle_flow_witness :
  let c := sample_connection (frame 1 sample_payload) in
  let bytes := [PROTOCOL_VERSION] ++ [53] ++ [0] ++ le32 7 ++ takeZ 8 (repeat 1 20) ++ [0]
               ++ le16 557568 ++ [CHARACTER_SET_UTF8] ++ le16 2 ++ le16 (Z.shiftr 557568 16)
               ++ [21] ++ repeat 0 10 ++ dropZ 8 (repeat 1 20) ++ [0]
               ++ MYSQL_NATIVE_PASSWORD ++ [0] in
  write_handshake_v10 (greeting c) false = Some (sample_greeting, bytes) /\
  zlen bytes < MAX_PACKET_SIZE /\ zlen sample_payload <= MAX_PACKET_SIZE /\
  input (packets c) = frame ((sequence_id (packets c) + 1) mod 256) sample_payload ++ [] /\
  connection_handle c =
  Some (mkConnection 7 [] sample_greeting
          (snd (parse_client_handshake_packet Auth_new sample_payload false))
          (mkPackets 2 0 0 [] (frame 0 bytes))).
Proof.
  intros c bytes.
  split; [reflexivity|]. split; [vm_compute; reflexivity|].
  split; [vm_compute; discriminate|]. split; [reflexivity|].
  apply (connection_handle_flow c sample_greeting bytes sample_payload []);
    (reflexivity || (vm_compute; reflexivity) || (vm_compute; discriminate)).
Defined.

(** ** X5 *)

(** X5: XOR-ing the [gen_native_password] scramble with SHA1(salt ++ SHA1(SHA1(password))) gives back SHA1(password), for a non-empty password and a hash whose outputs have one length. *)
Theorem native_password_unscramble (sha1 : list Z -> list Z) (pw slt r : list Z) :
  pw <> [] ->
  zlen (sha1 pw) = zlen (sha1 (slt ++ sha1 (sha1 pw))) ->
  gen_native_password sha1 pw slt = Some r ->
  map (fun '(a, b) => Z.lxor a b) (combine r (sha1 (slt ++ sha1 (sha1 pw)))) = sha1 pw.
Proof.
  intros Hpw Hl Hg. destruct pw as [|b pw']; [contradiction|].
  unfold gen_native_password in Hg. cbv zeta in Hg.
  rewrite Hl, Z.ltb_irrefl in Hg. injection Hg as <-.
  apply unscramble_list. unfold zlen in Hl. lia.
Qed.

Lemma native_password_unscramble_witness :
  let sha1 := fun l : list Z => [zlen l] in
  [1] <> [] /\ zlen (sha1 [1]) = zlen (sha1 ([2] ++ sha1 (sha1 [1]))) /\
  gen_native_password sha1 [1] [2] = Some [3] /\
  map (fun '(a, b) => Z.lxor a b) (combine [3] (sha1 ([2] ++ sha1 (sha1 [1])))) = sha1 [1].
Proof.
  intros sha1.
  split; [discriminate|]. split; [reflexivity|]. split; [reflexivity|].
  apply (native_password_unscramble sha1 [1] [2] [3]); (discriminate || reflexivity).
Defined.

(** ** X6 *)

(** X6: when the cursor holds no 0 byte, [real_read_until] consumes all of it and drops the last byte read (or the last byte of the buffer when nothing is read). *)
Theorem real_read_until_no_terminator (buf s : list Z) :
  Forall (fun b => b <> 0) s ->
  real_read_until s buf = (removelast (buf ++ s), []).
Proof.
  intros Hs. unfold real_read_until. rewrite read_until0_nozero_all by exact Hs. reflexivity.
Qed.

Lemma real_read_until_no_terminator_witness :
  Forall (fun b => b <> 0) [2; 3] /\ real_read_until [2; 3] [1] = (removelast ([1] ++ [2; 3]), []).
Proof.
  split; [repeat constructor; lia|].
  apply real_read_until_no_terminator. repeat constructor; lia.
Defined.

(** ** X7 *)

(** X7: [write_packet] always succeeds, appends the payload plus a 4-byte header per frame, len / MAX_PACKET_SIZE + 1 frames (an empty frame closes a payload that is a multiple of MAX_PACKET_SIZE), and advances the sequence id by that many frames, modulo 256. *)
Theorem write_packet_output_size (data : list Z) (p : Packets) :
  exists w,
    write_packet data p =
      Ret (Ok tt) (set_sequence_id ((sequence_id p + zlen data / MAX_PACKET_SIZE + 1) mod 256)
                     (set_output (output p ++ w) p)) /\
    zlen w = zlen data + 4 * (zlen data / MAX_PACKET_SIZE + 1).
Proof.
  destruct p as [s c f i o]. unfold write_packet.
  destruct (write_packet_loop_size (S (length data)) data s c f i o) as (w & Hw & Hz); [lia|].
  exists w. split; [exact Hw | exact Hz].
Qed.

(** ** X8 *)

(** X8: the OK packet body has exactly the length reserved by the capacity of [write_ok_packet] and [write_ok_packet_with_eof_header]: 1 + len_enc_int_size(affected_rows) + len_enc_int_size(last_insert_id) + 2 + 2. *)
Theorem ok_body_capacity h a i f w :
  zlen (ok_body h a i f w) = 1 + len_enc_int_size a + len_enc_int_size i + 2 + 2.
Proof.
  unfold ok_body. rewrite !zlen_app, !zlen_write_len_int_size, !zlen_le16, zlen_single. ring.
Qed.

(** ** X9 *)

(** X9: a column definition written by [write_column_definition] has exactly the length of the capacity the function reserves: 4 plus the length-encoded sizes of the five names plus 13. *)
Theorem column_definition_capacity (f : Field) (col : list Z) :
  write_column_definition f = Some col ->
  zlen col = 4 + len_enc_str_size (database f) + len_enc_str_size (table f)
             + len_enc_str_size (org_table f) + len_enc_str_size (name f)
             + len_enc_str_size (org_name f) + 1 + 2 + 4 + 1 + 2 + 1 + 2.
Proof.
  unfold write_column_definition. destruct (type_to_mysql (typ f)) as [[t fl]|]; [|discriminate].
  intros E. apply (f_equal (fun o => match o with Some l => l | None => [] end)) in E.
  cbv beta iota zeta in E. subst col.
  rewrite !zlen_app, !zlen_write_len_str, !zlen_le16, zlen_le32, !zlen_single.
  change (len_enc_str_size [100; 101; 102]) with 4. ring.
Qed.

Lemma column_definition_capacity_witness :
  write_column_definition (mkField [99] 263 [] [] [] [] 0 0 0 0) =
    Some [3; 100; 101; 102; 0; 0; 0; 1; 99; 0; 12; 0; 0; 0; 0; 0; 0; 3; 0; 0; 0; 0; 0] /\
  zlen [3; 100; 101; 102; 0; 0; 0; 1; 99; 0; 12; 0; 0; 0; 0; 0; 0; 3; 0; 0; 0; 0; 0] =
    4 + len_enc_str_size [] + len_enc_str_size [] + len_enc_str_size []
    + len_enc_str_size [99] + len_enc_str_size [] + 1 + 2 + 4 + 1 + 2 + 1 + 2.
Proof.
  split; [reflexivity|].
  apply (column_definition_capacity (mkField [99] 263 [] [] [] [] 0 0 0 0)). reflexivity.
Defined.

(** ** X10 *)

(** X10: [write_err_packet] with an empty SQL state writes one ERR frame with the state HY000 ([SSUnknownSQLState]), for a message shorter than the frame limit. *)
Theorem write_err_packet_default_state (code : Z) (msg : list Z) (p : Packets) :
  zlen msg + 9 < MAX_PACKET_SIZE ->
  write_err_packet code [] msg p =
  Ret (Ok tt) (set_sequence_id ((sequence_id p + 1) mod 256)
                 (set_output (output p ++ frame (sequence_id p)
                                ([ERR_PACKET] ++ le16 code ++ [35] ++ SSUnknownSQLState ++ msg))
                    p)).
Proof.
  intros Hm. unfold write_err_packet. cbv zeta.
  replace (zlen SSUnknownSQLState =? 5) with true by reflexivity. cbn [negb].
  apply write_packet_small.
  rewrite !zlen_app. change (zlen SSUnknownSQLState) with 5.
  rewrite zlen_le16, !zlen_single. lia.
Qed.

Lemma write_err_packet_default_state_witness :
  zlen [69] + 9 < MAX_PACKET_SIZE /\
  write_err_packet 1105 [] [69] (mkPackets 1 0 2 [] []) =
  Ret (Ok tt) (mkPackets 2 0 2 []
                 ([] ++ frame 1 ([ERR_PACKET] ++ le16 1105 ++ [35] ++ SSUnknownSQLState ++ [69]))).
Proof.
  split; [vm_compute; reflexivity|].
  apply (write_err_packet_default_state 1105 [69] (mkPackets 1 0 2 [] [])).
  vm_compute. reflexivity.
Defined.

(** ** X11 *)

(** X11: when the handler sends a result set (non-empty fields) and then rows and returns Ok, [exec_query] writes the unframed column definitions, an unframed EOF unless DEPRECATE_EOF, the unframed rows and then the end of the result: an unframed EOF with the flags (and MORE_RESULTS when [more]) or one framed OK-with-EOF-header packet. *)
Theorem exec_query_result_set (h : Handler) (sql : list Z) (more : bool) (p : Packets)
  (qr1 qr2 : SqlResult) (k1 k2 : res unit -> hprog) (cols : list (list Z)) :
  h sql = HCall qr1 k1 ->
  fields qr1 <> [] ->
  map write_column_definition (fields qr1) = map Some cols ->
  k1 (Ok tt) = HCall qr2 k2 ->
  k2 (Ok tt) = HRet (Ok tt) ->
  let flags := if more then Z.lor (status_flags p) SERVER_MORE_RESULTS_EXISTS
               else status_flags p in
  let rws := concat (map row_bytes (rows qr2)) in
  exec_query h sql more p =
  if deprecate_eof_unset p
  then Ret (Ok tt)
         (set_output (output p ++ concat cols ++ [EOF_PACKET] ++ le16 0 ++ le16 (status_flags p)
                      ++ rws ++ [EOF_PACKET] ++ le16 0 ++ le16 flags) p)
  else Ret (Ok tt)
         (set_sequence_id ((sequence_id p + 1) mod 256)
            (set_output (output p ++ concat cols ++ rws
                         ++ frame (sequence_id p) (ok_body EOF_PACKET 0 0 flags 0)) p)).
Proof.
  intros Hh Hf Hm Hk1 Hk2 flags rws.
  unfold exec_query, bind at 1. rewrite Hh, run_handler_call.
  unfold callback at 1, bind at 1 2, get. cbn [send_finished field_sent negb].
  destruct (fields qr1) as [|f0 fs] eqn:Ef; [contradiction|]. rewrite <- Ef in Hm.

  unfold bind at 1, attempt. rewrite (write_fields_output qr1 cols p Hm).
  unfold ret. cbn [fst snd]. rewrite Hk1, run_handler_call.
  unfold callback at 1, bind at 1 2, get. cbn [send_finished field_sent negb].
  unfold bind at 1, attempt, write_rows. rewrite write_rows_list_output.
  unfold ret. cbn [fst snd]. rewrite Hk2. cbn [run_handler]. unfold ret.
  cbn [field_sent send_finished negb].
  unfold write_end_result, bind, get.
  cbn [status_flags capability output set_output sequence_id].
  unfold deprecate_eof_unset. cbn [capability set_output].
  fold flags. destruct (Z.land (capability p) CapabilityClientDeprecateEOF =? 0).
  - unfold write_eof_packet, bind, write_all, modify. cbn.
    rewrite <- !app_assoc. reflexivity.
  - cbn [app]. unfold write_ok_packet_with_eof_header.
    rewrite write_packet_small.
    + destruct p; cbn. rewrite <- !app_assoc. reflexivity.
    + pose proof (zlen_ok_body EOF_PACKET 0 0 flags 0). rewrite MAX_PACKET_SIZE_eq. lia.
Qed.

Lemma exec_query_result_set_witness :
  sample_query_handler [1] = HCall sample_fields_result sample_after_fields /\ fields sample_fields_result <> [] /\
  map write_column_definition (fields sample_fields_result) =
    map Some [[3; 100; 101; 102; 0; 0; 0; 1; 99; 0; 12; 0; 0; 0; 0; 0; 0; 3; 0; 0; 0; 0; 0]] /\
  sample_after_fields (Ok tt) = HCall sample_rows_result sample_after_rows /\ sample_after_rows (Ok tt) = HRet (Ok tt) /\
  exec_query sample_query_handler [1] false (mkPackets 1 0 2 [] []) =
  Ret (Ok tt) (mkPackets 1 0 2 []
    ([3; 100; 101; 102; 0; 0; 0; 1; 99; 0; 12; 0; 0; 0; 0; 0; 0; 3; 0; 0; 0; 0; 0]
     ++ [255; 0; 0; 2; 0] ++ [1; 65; 251] ++ [255; 0; 0; 2; 0])).
Proof.
  split; [reflexivity|]. split; [discriminate|]. split; [reflexivity|].
  split; [reflexivity|]. split; [reflexivity|].
  apply (exec_query_result_set sample_query_handler [1] false (mkPackets 1 0 2 [] []) sample_fields_result sample_rows_result sample_after_fields sample_after_rows
           [[3; 100; 101; 102; 0; 0; 0; 1; 99; 0; 12; 0; 0; 0; 0; 0; 0; 3; 0; 0; 0; 0; 0]]);
    (reflexivity || discriminate).
Defined.

(** ** X12 *)

(** X12: a command whose header carries a sequence byte other than 0 makes [handle_next_command] return the InvalidSequence error after consuming the header, with nothing written. *)
Theorem handle_next_command_bad_sequence nm h st cap p h0 h1 h2 h3 rest :
  input p = [h0; h1; h2; h3] ++ rest -> h3 <> 0 ->
  handle_next_command nm h st cap p =
  Ret (Err (Io InvalidSequence)) (mkPackets 0 cap st rest (output p)).
Proof.
  intros Hin H3.
  unfold handle_next_command, bind at 1, modify.
  set (pr := set_status_flags st (set_capability cap (set_sequence_id 0 p))).
  unfold bind at 1.
  rewrite (read_ephemeral_packet_bad_sequence pr h0 h1 h2 h3 rest) by (destruct p; auto).
  destruct p; reflexivity.
Qed.

Lemma handle_next_command_bad_sequence_witness :
  input (Packets_new [1; 0; 0; 5; 14]) = [1; 0; 0; 5] ++ [14] /\ 5 <> 0 /\
  handle_next_command sample_type_name sample_handler 2 0 (Packets_new [1; 0; 0; 5; 14]) =
  Ret (Err (Io InvalidSequence)) (mkPackets 0 0 2 [14] []).
Proof.
  split; [reflexivity|]. split; [lia|].
  apply (handle_next_command_bad_sequence sample_type_name sample_handler 2 0 (Packets_new [1; 0; 0; 5; 14]) 1 0 0 5 [14]);
    [reflexivity | lia].
Defined.

(** ** X13 *)

(** X13: with fewer than 4 bytes of input, [handle_next_command] returns the HeaderReadFailed error, drops the input and writes nothing. *)
Theorem handle_next_command_short_header nm h st cap p :
  zlen (input p) < 4 ->
  handle_next_command nm h st cap p =
  Ret (Err (Io HeaderReadFailed)) (mkPackets 0 cap st [] (output p)).
Proof.
  intros Hl.
  unfold handle_next_command, bind at 1, modify.
  set (pr := set_status_flags st (set_capability cap (set_sequence_id 0 p))).
  unfold bind at 1.
  rewrite (read_ephemeral_packet_short pr) by (destruct p; auto).
  destruct p; reflexivity.
Qed.

Lemma handle_next_command_short_header_witness :
  zlen (input (Packets_new [1; 0])) < 4 /\
  handle_next_command sample_type_name sample_handler 2 0 (Packets_new [1; 0]) =
  Ret (Err (Io HeaderReadFailed)) (mkPackets 0 0 2 [] []).
Proof.
  split; [vm_compute; reflexivity|].
  apply (handle_next_command_short_header sample_type_name sample_handler 2 0 (Packets_new [1; 0])).
  vm_compute. reflexivity.
Defined.

(** ** X14 *)

(** X14: a COM_QUIT command returns the ComQuitSignal error and writes nothing. *)
Theorem handle_next_command_quit nm h st cap p tl rest :
  zlen (1 :: tl) <= MAX_PACKET_SIZE ->
  input p = frame 0 (1 :: tl) ++ rest ->
  handle_next_command nm h st cap p =
  Ret (Err ComQuitSignal) (mkPackets 1 cap st rest (output p)).
Proof.
  intros Hlen Hin. open_command pr Hlen Hin. reflexivity.
Qed.

Lemma handle_next_command_quit_witness :
  zlen [1] <= MAX_PACKET_SIZE /\
  input (Packets_new [1; 0; 0; 0; 1]) = frame 0 [1] ++ [] /\
  handle_next_command sample_type_name sample_handler 2 0 (Packets_new [1; 0; 0; 0; 1]) =
  Ret (Err ComQuitSignal) (mkPackets 1 0 2 [] []).
Proof.
  split; [vm_compute; discriminate|]. split; [reflexivity|].
  apply (handle_next_command_quit sample_type_name sample_handler 2 0 (Packets_new [1; 0; 0; 0; 1]) [] []);
    [vm_compute; discriminate | reflexivity].
Defined.

(** ** X15 *)

(** X15: a COM_PING, or a COM_INIT_DB whose database name is valid UTF-8, is answered with one OK frame (sequence id 1) carrying the status flags passed in. *)
Theorem handle_next_command_ok_reply nm h st cap p cmd body rest :
  cmd = 14 \/ (cmd = 2 /\ utf8_valid body = true) ->
  zlen (cmd :: body) <= MAX_PACKET_SIZE ->
  input p = frame 0 (cmd :: body) ++ rest ->
  handle_next_command nm h st cap p =
  Ret (Ok tt) (mkPackets 2 cap st rest (output p ++ frame 1 (ok_body OK_PACKET 0 0 st 0))).
Proof.
  intros Hcmd Hlen Hin. open_command pr Hlen Hin.
  destruct Hcmd as [-> | [-> Hu]].
  - cbn -[write_ok_packet]. unfold write_ok_packet.
    rewrite write_packet_small; [reflexivity|].
    pose proof (zlen_ok_body OK_PACKET 0 0 st 0). rewrite MAX_PACKET_SIZE_eq. lia.
  - cbn -[write_ok_packet utf8_valid].
    unfold parse_com_init_db, trim_packet_type, bind. rewrite Hu.
    cbn -[write_ok_packet]. unfold write_ok_packet.
    rewrite write_packet_small; [reflexivity|].
    pose proof (zlen_ok_body OK_PACKET 0 0 st 0). rewrite MAX_PACKET_SIZE_eq. lia.
Qed.

Lemma handle_next_command_ok_reply_witness :
  (2 = 14 \/ (2 = 2 /\ utf8_valid [100; 98] = true)) /\
  zlen [2; 100; 98] <= MAX_PACKET_SIZE /\
  input (Packets_new [3; 0; 0; 0; 2; 100; 98]) = frame 0 [2; 100; 98] ++ [] /\
  handle_next_command sample_type_name sample_handler 2 0 (Packets_new [3; 0; 0; 0; 2; 100; 98]) =
  Ret (Ok tt) (mkPackets 2 0 2 [] (frame 1 (ok_body OK_PACKET 0 0 2 0))).
Proof.
  split; [right; split; reflexivity|].
  split; [vm_compute; discriminate|]. split; [reflexivity|].
  apply (handle_next_command_ok_reply sample_type_name sample_handler 2 0 (Packets_new [3; 0; 0; 0; 2; 100; 98])
           2 [100; 98] []);
    [right; split; reflexivity | vm_compute; discriminate | reflexivity].
Defined.

(** ** X16 *)

(** X16: the prepared-statement commands (COM_STMT_PREPARE, EXECUTE, CLOSE, RESET) are accepted and nothing is written. *)
Theorem handle_next_command_stmt_ignored nm h st cap p cmd body rest :
  cmd = 22 \/ cmd = 23 \/ cmd = 25 \/ cmd = 26 ->
  zlen (cmd :: body) <= MAX_PACKET_SIZE ->
  input p = frame 0 (cmd :: body) ++ rest ->
  handle_next_command nm h st cap p = Ret (Ok tt) (mkPackets 1 cap st rest (output p)).
Proof.
  intros Hcmd Hlen Hin. open_command pr Hlen Hin.
  destruct Hcmd as [-> | [-> | [-> | ->]]]; reflexivity.
Qed.

Lemma handle_next_command_stmt_ignored_witness :
  (22 = 22 \/ 22 = 23 \/ 22 = 25 \/ 22 = 26) /\
  zlen [22; 5] <= MAX_PACKET_SIZE /\
  input (Packets_new [2; 0; 0; 0; 22; 5]) = frame 0 [22; 5] ++ [] /\
  handle_next_command sample_type_name sample_handler 2 0 (Packets_new [2; 0; 0; 0; 22; 5]) =
  Ret (Ok tt) (mkPackets 1 0 2 [] []).
Proof.
  split; [left; reflexivity|].
  split; [vm_compute; discriminate|]. split; [reflexivity|].
  apply (handle_next_command_stmt_ignored sample_type_name sample_handler 2 0 (Packets_new [2; 0; 0; 0; 22; 5]) 22 [5] []);
    [left; reflexivity | vm_compute; discriminate | reflexivity].
Defined.

(** ** X17 *)

(** X17: any other command code up to 0x1f is answered with one ERR frame, code ERUnknownComError, state SSUnknownComError and the message 'Unknown command: ' followed by the command name. *)
Theorem handle_next_command_unknown nm h st cap p cmd body rest :
  0 <= cmd <= 31 ->
  ~ In cmd [1; 2; 3; 14; 27; 22; 23; 26; 25] ->
  zlen (nm cmd) + 26 < MAX_PACKET_SIZE ->
  zlen (cmd :: body) <= MAX_PACKET_SIZE ->
  input p = frame 0 (cmd :: body) ++ rest ->
  handle_next_command nm h st cap p =
  Ret (Ok tt) (mkPackets 2 cap st rest
                 (output p ++ frame 1 ([ERR_PACKET] ++ le16 ERUnknownComError ++ [35]
                                       ++ SSUnknownComError ++ msg_unknown_command ++ nm cmd))).
Proof.
  intros Hr Hn Hnm Hlen Hin. open_command pr Hlen Hin.
  unfold packet_type_of.
  cbn [In] in Hn.
  repeat match goal with
         | |- context [cmd =? ?k] =>
             replace (cmd =? k) with false by (symmetry; apply Z.eqb_neq; intro; apply Hn; lia)
         end.
  replace ((0 <=? cmd) && (cmd <=? 31)) with true
    by (symmetry; apply andb_true_iff; split; apply Z.leb_le; lia).
  cbn -[write_err_packet]. unfold write_err_packet. cbn -[write_packet msg_unknown_command].
  rewrite write_packet_small; [reflexivity|].
  repeat (rewrite zlen_cons || rewrite zlen_app).
  rewrite MAX_PACKET_SIZE_eq in *. lia.
Qed.

Lemma handle_next_command_unknown_witness :
  0 <= 4 <= 31 /\ ~ In 4 [1; 2; 3; 14; 27; 22; 23; 26; 25] /\
  zlen (sample_type_name 4) + 26 < MAX_PACKET_SIZE /\
  zlen [4] <= MAX_PACKET_SIZE /\
  input (Packets_new [1; 0; 0; 0; 4]) = frame 0 [4] ++ [] /\
  handle_next_command sample_type_name sample_handler 2 0 (Packets_new [1; 0; 0; 0; 4]) =
  Ret (Ok tt) (mkPackets 2 0 2 []
                 ([] ++ frame 1 ([ERR_PACKET] ++ le16 ERUnknownComError ++ [35]
                                 ++ SSUnknownComError ++ msg_unknown_command ++ [83]))).
Proof.
  split; [lia|]. split; [cbn; lia|]. split; [vm_compute; reflexivity|].
  split; [vm_compute; discriminate|]. split; [reflexivity|].
  apply (handle_next_command_unknown sample_type_name sample_handler 2 0 (Packets_new [1; 0; 0; 0; 4]) 4 [] []);
    [lia | cbn; lia | vm_compute; reflexivity | vm_compute; discriminate | reflexivity].
Defined.

(** ** X18 *)

(** X18: a command code above 0x1f makes [handle_next_command] panic (PacketType::from). *)
Theorem handle_next_command_bad_type_panics nm h st cap p cmd body rest :
  31 < cmd ->
  zlen (cmd :: body) <= MAX_PACKET_SIZE ->
  input p = frame 0 (cmd :: body) ++ rest ->
  handle_next_command nm h st cap p = Panic.
Proof.
  intros Hc Hlen Hin. open_command pr Hlen Hin.
  unfold packet_type_of.
  repeat match goal with
         | |- context [cmd =? ?k] =>
             replace (cmd =? k) with false by (symmetry; apply Z.eqb_neq; lia)
         end.
  replace ((0 <=? cmd) && (cmd <=? 31)) with false
    by (symmetry; apply andb_false_iff; right; apply Z.leb_gt; lia).
  reflexivity.
Qed.

Lemma handle_next_command_bad_type_panics_witness :
  31 < 200 /\ zlen [200] <= MAX_PACKET_SIZE /\
  input (Packets_new [1; 0; 0; 0; 200]) = frame 0 [200] ++ [] /\
  handle_next_command sample_type_name sample_handler 2 0 (Packets_new [1; 0; 0; 0; 200]) = Panic.
Proof.
  split; [lia|]. split; [vm_compute; discriminate|]. split; [reflexivity|].
  apply (handle_next_command_bad_type_panics sample_type_name sample_handler 2 0 (Packets_new [1; 0; 0; 0; 200]) 200 [] []);
    [lia | vm_compute; discriminate | reflexivity].
Defined.

(** ** X19 *)

(** X19: a COM_SET_OPTION with fewer than two bytes after the command byte is answered with one ERR frame carrying the message 'Error parsing set option'. *)
Theorem handle_next_command_set_option_short nm h st cap p body rest :
  (length body < 2)%nat ->
  input p = frame 0 (27 :: body) ++ rest ->
  handle_next_command nm h st cap p =
  Ret (Ok tt) (mkPackets 2 cap st rest
                 (output p ++ frame 1 ([ERR_PACKET] ++ le16 ERUnknownComError ++ [35]
                                       ++ SSUnknownComError ++ msg_error_parsing_set_option))).
Proof.
  intros Hb Hin.
  assert (Hlen : zlen (27 :: body) <= MAX_PACKET_SIZE).
  { rewrite MAX_PACKET_SIZE_eq. unfold zlen. cbn [length]. lia. }
  open_command pr Hlen Hin.
  destruct body as [|b0 [|b1 t]]; [| |cbn in Hb; lia];
    (cbn -[write_err_packet]; unfold write_err_packet;
     cbn -[write_packet msg_error_parsing_set_option];
     rewrite write_packet_small; [reflexivity | vm_compute; reflexivity]).
Qed.

Lemma handle_next_command_set_option_short_witness :
  (length [5] < 2)%nat /\
  input (Packets_new [2; 0; 0; 0; 27; 5]) = frame 0 [27; 5] ++ [] /\
  handle_next_command sample_type_name sample_handler 2 0 (Packets_new [2; 0; 0; 0; 27; 5]) =
  Ret (Ok tt) (mkPackets 2 0 2 []
                 ([] ++ frame 1 ([ERR_PACKET] ++ le16 ERUnknownComError ++ [35]
                                 ++ SSUnknownComError ++ msg_error_parsing_set_option))).
Proof.
  split; [cbn; lia|]. split; [reflexivity|].
  apply (handle_next_command_set_option_short sample_type_name sample_handler 2 0 (Packets_new [2; 0; 0; 0; 27; 5]) [5] []);
    [cbn; lia | reflexivity].
Defined.

(** ** X20 *)

(** X20: a COM_QUERY whose text is valid UTF-8 runs [exec_query] once on the whole text with more = false, whatever the MULTI_STATEMENTS capability, on the framer state after the command frame. *)
Theorem handle_next_command_query nm h st cap p body rest :
  utf8_valid body = true ->
  zlen (3 :: body) <= MAX_PACKET_SIZE ->
  input p = frame 0 (3 :: body) ++ rest ->
  handle_next_command nm h st cap p = exec_query h body false (mkPackets 1 cap st rest (output p)).
Proof.
  intros Hu Hlen Hin. open_command pr Hlen Hin.
  cbn -[exec_statements utf8_valid].
  unfold parse_com_query, trim_packet_type, bind at 1. rewrite Hu. unfold ret.
  destruct (negb (Z.land cap 65536 =? 0)); exact (bind_ret_unit _ _).
Qed.

Lemma handle_next_command_query_witness :
  utf8_valid [115] = true /\ zlen [3; 115] <= MAX_PACKET_SIZE /\
  input (Packets_new [2; 0; 0; 0; 3; 115]) = frame 0 [3; 115] ++ [] /\
  handle_next_command sample_type_name sample_query_handler 2 0 (Packets_new [2; 0; 0; 0; 3; 115]) =
  exec_query sample_query_handler [115] false (mkPackets 1 0 2 [] []).
Proof.
  split; [reflexivity|]. split; [vm_compute; discriminate|]. split; [reflexivity|].
  apply (handle_next_command_query sample_type_name sample_query_handler 2 0 (Packets_new [2; 0; 0; 0; 3; 115]) [115] []);
    [reflexivity | vm_compute; discriminate | reflexivity].
Defined.
